(** * The request pipeline and the session hook of the gallery front-end

  A shallow embedding of [frontend/src/lib/api.ts], [frontend/src/lib/auth.ts]
  and [frontend/src/hooks/useAuth.ts], followed by the properties of the
  retry loop, of header construction, of response normalisation and of the
  session state transitions.

  Conventions.  An [async] function is embedded as a function over an
  explicit world (the browser storage and the trace of effects performed so
  far); what the network does is given by an environment.  A rejected
  promise and a [throw] are the same thing here: the [Thrown] completion. *)

From Stdlib Require Import Ascii String ZArith Lia.
From stdpp Require Import gmap strings list pretty.

Local Open Scope string_scope.
Local Open Scope Z_scope.
Set Warnings "-register-all".

(** ** JavaScript values the code manipulates *)

Module Js.

(** The constructors an exception can be an [instanceof]. *)
Inductive ErrorClass := Error | TypeError | SyntaxError | DOMException.

Definition ErrorClass_eqb (a b : ErrorClass) : bool :=
  match a, b with
  | Error, Error | TypeError, TypeError
  | SyntaxError, SyntaxError | DOMException, DOMException => true
  | _, _ => false
  end.

(** An exception object: its constructor and its [message].  Nothing in
    the sources attaches any further field to an exception. *)
Record Exn := mkExn { exn_class : ErrorClass; exn_message : string }.

(** [new Error(msg)] *)
Definition new_Error (msg : string) : Exn := mkExn Error msg.

(** The value of [lastError]: [Error | null]. *)
Definition Thrown_value := option Exn.

(** How a call ends: it returns (the promise is fulfilled) or it throws
    (the promise is rejected). *)
Inductive Completion (A : Type) :=
| Returned (a : A)
| Thrown (e : Thrown_value).
Arguments Returned {A} a.
Arguments Thrown {A} e.

(** A parsed JSON document.  Numbers are kept to the integers. *)
Inductive JSON :=
| JNull
| JBool (b : bool)
| JNum (n : Z)
| JStr (s : string)
| JArr (items : list JSON)
| JObj (fields : list (string * JSON)).

(** A JavaScript value that may also be [undefined]. *)
Definition Value := option JSON.
Definition undefined : Value := None.

(** ToBoolean *)
Definition truthy (v : JSON) : bool :=
  match v with
  | JNull => false
  | JBool b => b
  | JNum n => negb (n =? 0)
  | JStr s => negb (String.eqb s EmptyString)
  | JArr _ | JObj _ => true
  end.

Definition truthy_value (v : Value) : bool :=
  match v with None => false | Some j => truthy j end.

(** [Object.keys(v).length] for a value that is not [null]: own enumerable
    string keys (indices for strings and arrays, none for other
    primitives). *)
Definition Object_keys_length (v : JSON) : nat :=
  match v with
  | JNull | JBool _ | JNum _ => 0%nat
  | JStr s => String.length s
  | JArr items => length items
  | JObj fields => length fields
  end.

Fixpoint assoc {A} (k : string) (l : list (string * A)) : option A :=
  match l with
  | [] => None
  | (k', v) :: l' => if String.eqb k k' then Some v else assoc k l'
  end.

(** The message of the [TypeError] raised by a property read on [null]. *)
Definition null_read_message (prop : string) : string :=
  "Cannot read properties of null (reading '" ++ prop ++ "')".

(** [v.prop] for a property name that is neither an index nor a built-in
    member: throws on [null], is [undefined] on primitives and arrays. *)
Definition get_prop (v : JSON) (prop : string) : Exn + Value :=
  match v with
  | JNull => inl (mkExn TypeError (null_read_message prop))
  | JObj fields => inr (assoc prop fields)
  | JBool _ | JNum _ | JStr _ | JArr _ => inr undefined
  end.

Definition join (sep : string) (l : list string) : string :=
  match l with
  | [] => EmptyString
  | x :: xs => fold_left (fun acc y => acc ++ sep ++ y) xs x
  end.

Definition hex_digit (n : N) : ascii :=
  match n with
  | 0%N => "0"%char | 1%N => "1"%char | 2%N => "2"%char | 3%N => "3"%char
  | 4%N => "4"%char | 5%N => "5"%char | 6%N => "6"%char | 7%N => "7"%char
  | 8%N => "8"%char | 9%N => "9"%char | 10%N => "a"%char | 11%N => "b"%char
  | 12%N => "c"%char | 13%N => "d"%char | 14%N => "e"%char | _ => "f"%char
  end.

Definition backslash : ascii := ascii_of_N 92.

(** A backslash and one character. *)
Definition escaped (c : ascii) : string := String backslash (String c EmptyString).

(** One character of a quoted JSON string. *)
Definition escape_char (c : ascii) : string :=
  let n := N_of_ascii c in
  if (n =? 34)%N then escaped c
  else if (n =? 92)%N then escaped backslash
  else if (n =? 8)%N then escaped "b"
  else if (n =? 12)%N then escaped "f"
  else if (n =? 10)%N then escaped "n"
  else if (n =? 13)%N then escaped "r"
  else if (n =? 9)%N then escaped "t"
  else if (n <? 32)%N then
    String backslash
      ("u00" ++ String (hex_digit (n / 16)) (String (hex_digit (n mod 16)) EmptyString))
  else String c EmptyString.

Fixpoint escape (s : string) : string :=
  match s with
  | EmptyString => EmptyString
  | String c s' => escape_char c ++ escape s'
  end.

Definition dquote : string := String (ascii_of_N 34) EmptyString.

Definition quote (s : string) : string := dquote ++ escape s ++ dquote.

(** [JSON.stringify(v)] *)
Fixpoint JSON_stringify (v : JSON) : string :=
  match v with
  | JNull => "null"
  | JBool true => "true"
  | JBool false => "false"
  | JNum n => pretty n
  | JStr s => quote s
  | JArr items => "[" ++ join "," (map JSON_stringify items) ++ "]"
  | JObj fields =>
      "{" ++ join "," (map (fun kv => quote (fst kv) ++ ":" ++ JSON_stringify (snd kv)) fields) ++ "}"
  end.

(** ToString, as applied by [new Error(v)] to a message that is not a
    string. *)
Fixpoint ToString (v : JSON) : string :=
  match v with
  | JNull => "null"
  | JBool true => "true"
  | JBool false => "false"
  | JNum n => pretty n
  | JStr s => s
  | JArr items =>
      join "," (map (fun x => match x with JNull => EmptyString | _ => ToString x end) items)
  | JObj _ => "[object Object]"
  end.

End Js.

(** ** [lib/api.ts]: the request pipeline *)

Module Api.
Import Js.

(** *** Plain objects and [Headers] *)

(** A plain object with string values: own keys in insertion order. *)
Definition PlainObject := list (string * string).

(** [o[k] = v]: an existing key keeps its place. *)
Fixpoint obj_set (k v : string) (o : PlainObject) : PlainObject :=
  match o with
  | [] => [(k, v)]
  | (k', v') :: o' =>
      if String.eqb k k' then (k, v) :: o' else (k', v') :: obj_set k v o'
  end.

(** [{ ...o, ...src }] *)
Definition spread (o src : PlainObject) : PlainObject :=
  fold_left (fun acc kv => obj_set (fst kv) (snd kv) acc) src o.

Definition lower_char (c : ascii) : ascii :=
  let n := N_of_ascii c in
  if ((65 <=? n) && (n <=? 90))%N then ascii_of_N (n + 32) else c.

Fixpoint lower (s : string) : string :=
  match s with
  | EmptyString => EmptyString
  | String c s' => String (lower_char c) (lower s')
  end.

(** The browser's [Headers]: a list of entries whose names are compared
    without regard to case.  Names are stored in lower case; values are
    stored as given. *)
Definition Headers := list (string * string).

Definition Headers_append (name value : string) (h : Headers) : Headers :=
  (h ++ [(lower name, value)])%list.

(** [new Headers(init)] for a record [init]: one [append] per own key. *)
Definition new_Headers (init : PlainObject) : Headers :=
  fold_left (fun h kv => Headers_append (fst kv) (snd kv) h) init [].

Definition Headers_values (name : string) (h : Headers) : list string :=
  map snd (List.filter (fun kv => String.eqb (fst kv) (lower name)) h).

(** [h.get(name)]: the values under that name joined by a comma and a
    space, [null] when there is none. *)
Definition Headers_get (name : string) (h : Headers) : option string :=
  match Headers_values name h with
  | [] => None
  | vs => Some (join ", " vs)
  end.

Definition Headers_has (name : string) (h : Headers) : bool :=
  match Headers_values name h with [] => false | _ => true end.

Definition Headers_delete (name : string) (h : Headers) : Headers :=
  List.filter (fun kv => negb (String.eqb (fst kv) (lower name))) h.

(** *** Constants *)

Definition DEFAULT_API_URL : string := "http://localhost:8000/api".
Definition REQUEST_TIMEOUT : Z := 30000.
Definition MAX_RETRIES : Z := 3.
Definition RETRY_DELAY : Z := 1000.

(** [process.env.NEXT_PUBLIC_API_URL || 'http://localhost:8000/api'] *)
Definition API_URL (NEXT_PUBLIC_API_URL : option string) : string :=
  match NEXT_PUBLIC_API_URL with
  | Some u => if String.eqb u EmptyString then DEFAULT_API_URL else u
  | None => DEFAULT_API_URL
  end.

(** *** Responses *)

(** A [Response] as the code observes it: its status and what
    [await response.json()] gives, a parsed document or the exception the
    read rejects with. *)
Record Response := mkResponse { status : Z; json : Exn + JSON }.

(** [response.ok] *)
Definition ok (response : Response) : bool :=
  (200 <=? status response) && (status response <=? 299).

(** [ApiResponse<T>] as built by [handleResponse]. *)
Record ApiResponse := mkApiResponse {
  data : JSON;
  api_status : Z;
  message : Value
}.

Definition generic_message : string := "An error occurred".

Definition handleResponse (response : Response) : Completion ApiResponse :=
  match json response with
  | inl e => Thrown (Some e)
  | inr data =>
      if negb (ok response) then
        if truthy data && (0 <? Object_keys_length data)%nat then
          Thrown (Some (new_Error (JSON_stringify data)))
        else
          match get_prop data "message" with
          | inl e => Thrown (Some e)
          | inr m =>
              Thrown (Some (new_Error
                (match m with
                 | Some v => if truthy v then ToString v else generic_message
                 | None => generic_message
                 end)))
          end
      else
        match get_prop data "message" with
        | inl e => Thrown (Some e)
        | inr m =>
            Returned {| data := data; api_status := status response; message := m |}
        end
  end.

(** *** URLs *)

(** A query parameter value ([Record<string, any>], kept to the
    primitives the callers pass). *)
Inductive ParamValue :=
| PUndefined
| PNull
| PString (s : string)
| PNumber (n : Z)
| PBoolean (b : bool).

Definition param_toString (v : ParamValue) : option string :=
  match v with
  | PUndefined | PNull => None
  | PString s => Some s
  | PNumber n => Some (pretty n)
  | PBoolean true => Some "true"
  | PBoolean false => Some "false"
  end.

(** A URL before serialisation: the text given to [new URL] and the
    entries appended to its [searchParams]. *)
Record Url := mkUrl { url_input : string; searchParams : list (string * string) }.

Definition buildUrl (api_url endpoint : string)
    (params : option (list (string * ParamValue))) : Url :=
  {| url_input := api_url ++ endpoint;
     searchParams :=
       match params with
       | Some ps =>
           omap (fun kv => match param_toString (snd kv) with
                           | Some s => Some (fst kv, s)
                           | None => None
                           end) ps
       | None => []
       end |}.

(** *** Requests *)

(** A request body: text (the callers pass [JSON.stringify] of their
    payload) or a [FormData] instance. *)
Inductive BodyInit :=
| BodyText (s : string)
| BodyFormData (parts : list (string * string)).

(** [body instanceof FormData] *)
Definition is_FormData (b : option BodyInit) : bool :=
  match b with Some (BodyFormData _) => true | _ => false end.

(** [RequestOptions]: the three fields the pipeline adds and the fields
    of [RequestInit] the callers set.  [headers] is a record, the only
    form of [HeadersInit] whose entries an object spread copies. *)
Record RequestOptions := mkRequestOptions {
  params : option (list (string * ParamValue));
  timeout : option Z;
  retries : option Z;
  method : option string;
  headers : option PlainObject;
  body : option BodyInit
}.

Definition no_options : RequestOptions :=
  mkRequestOptions None None None None None None.

(** The second argument of [fetch] (the abort signal is part of the
    timer, below). *)
Record FetchInit := mkFetchInit {
  init_method : option string;
  init_body : option BodyInit;
  init_headers : Headers
}.

(** What a call does to the outside, in order. *)
Inductive Event :=
| GetItem (key : string)
| SetItem (key value : string)
| RemoveItem (key : string)
| Fetch (url : Url) (init : FetchInit)
| Delay (ms : Z).

(** What the network makes of one [fetch]: after [latency] milliseconds
    the promise settles, with a response or with the exception it rejects
    with. *)
Record Arrival := mkArrival { latency : Z; settles : Exn + Response }.

(** Everything a call does not control: the build-time configuration, the
    network's answer to the [k]-th [fetch] of the call, and what the other
    tasks of the page do to [localStorage] while the call is suspended in
    its [k]-th [fetch] or in its [k]-th [delay]. *)
Record Environment := mkEnvironment {
  NEXT_PUBLIC_API_URL : option string;
  transport : nat -> Url -> FetchInit -> Arrival;
  during_fetch : nat -> gmap string string -> gmap string string;
  during_delay : nat -> gmap string string -> gmap string string
}.

(** The completion of a call, the storage it leaves and its events. *)
Definition Run (A : Type) : Type :=
  (Completion A * gmap string string * list Event)%type.

Definition failed_to_fetch : Exn := mkExn TypeError "Failed to fetch".
Definition abort_error : Exn := mkExn DOMException "The user aborted a request.".
Definition network_message : string :=
  "Network error: Please check your internet connection".

(** [await fetch(url, { ..., signal })] racing
    [setTimeout(() => controller.abort(), timeout)]: when the timer fires
    first the promise rejects with the abort exception. *)
Definition fetch_under_timer (timeout : Z) (a : Arrival) : Exn + Response :=
  if timeout <=? latency a then inl abort_error else settles a.

(** The body of the [try] block for the [k]-th attempt. *)
Definition try_attempt (env : Environment) (timeout : Z) (k : nat)
    (url : Url) (init : FetchInit) : Completion ApiResponse :=
  match fetch_under_timer timeout (transport env k url init) with
  | inl e => Thrown (Some e)
  | inr response => handleResponse response
  end.

(** [error instanceof TypeError && error.message === 'Failed to fetch'] *)
Definition is_failed_to_fetch (error : Thrown_value) : bool :=
  match error with
  | Some e =>
      ErrorClass_eqb (exn_class e) TypeError
      && String.eqb (exn_message e) "Failed to fetch"
  | None => false
  end.

(** The [for] loop of [request], from the test [attempt <= retries] on.
    [fuel] bounds the iterations left; [None] is running out of it. *)
Fixpoint attempts (env : Environment) (endpoint : string)
    (params : option (list (string * ParamValue))) (timeout retries : Z)
    (init : FetchInit) (fuel : nat) (attempt : Z) (lastError : Thrown_value)
    (ls : gmap string string) : option (Run ApiResponse) :=
  if attempt <=? retries then
    match fuel with
    | O => None
    | S fuel' =>
        let k := Z.to_nat attempt in
        let url := buildUrl (API_URL (NEXT_PUBLIC_API_URL env)) endpoint params in
        let ls1 := during_fetch env k ls in
        match try_attempt env timeout k url init with
        | Returned r => Some (Returned r, ls1, [Fetch url init])
        | Thrown error =>
            let lastError := error in
            if is_failed_to_fetch error then
              Some (Thrown (Some (new_Error network_message)), ls1, [Fetch url init])
            else if attempt =? retries then
              Some (Thrown lastError, ls1, [Fetch url init])
            else
              let ms := RETRY_DELAY * (attempt + 1) in
              match attempts env endpoint params timeout retries init fuel'
                      (attempt + 1) lastError (during_delay env k ls1) with
              | Some (c, ls', evs) =>
                  Some (c, ls', Fetch url init :: Delay ms :: evs)
              | None => None
              end
        end
    end
  else Some (Thrown lastError, ls, []).

(** [token && { Authorization: `Bearer ${token}` }], as spread into the
    header record. *)
Definition authorization_entry (token : option string) : PlainObject :=
  match token with
  | Some t => if String.eqb t EmptyString then [] else [("Authorization", "Bearer " ++ t)]
  | None => []
  end.

(** The [Headers] object [request] builds before its loop. *)
Definition build_headers (token : option string) (options : RequestOptions)
    : Headers :=
  let headers :=
    new_Headers
      (spread
         (spread [("Content-Type", "application/json")] (authorization_entry token))
         (default [] (headers options))) in
  if is_FormData (body options) then Headers_delete "Content-Type" headers
  else headers.

Definition request (env : Environment) (endpoint : string)
    (options : RequestOptions) (ls : gmap string string)
    : option (Run ApiResponse) :=
  let timeout := default REQUEST_TIMEOUT (timeout options) in
  let retries := default MAX_RETRIES (retries options) in
  let token := ls !! "token" in
  let headers := build_headers token options in
  let init := {| init_method := method options;
                 init_body := body options;
                 init_headers := headers |} in
  match attempts env endpoint (params options) timeout retries init
          (Z.to_nat (retries + 1)) 0 None ls with
  | Some (c, ls', evs) => Some (c, ls', GetItem "token" :: evs)
  | None => None
  end.

(** [{ ...options, method: m }] *)
Definition with_method (m : string) (options : RequestOptions) : RequestOptions :=
  {| params := params options; timeout := timeout options;
     retries := retries options; method := Some m;
     headers := headers options; body := body options |}.

(** [api.get] *)
Definition get (env : Environment) (endpoint : string) (options : RequestOptions) :=
  request env endpoint (with_method "GET" options).

(** [api.user.getProfile] *)
Definition user_getProfile (env : Environment) :=
  get env "/users/profile/" no_options.

(** [api.auth.logout] *)
Definition auth_logout (ls : gmap string string) : Run unit :=
  (Returned tt, delete "token" ls, [RemoveItem "token"]).

End Api.

(** ** [lib/auth.ts] *)

Module Auth.
Import Js Api.

(** [getToken], on the browser path ([window] is defined). *)
Definition getToken (ls : gmap string string) : option string := ls !! "token".

(** [!!getToken()] *)
Definition isAuthenticated (ls : gmap string string) : bool :=
  match getToken ls with
  | Some t => negb (String.eqb t EmptyString)
  | None => false
  end.

(** [getCurrentUser]: [null] is [None]. *)
Definition getCurrentUser (env : Environment) (ls : gmap string string)
    : option (Run (option JSON)) :=
  if negb (isAuthenticated ls) then
    Some (Returned None, ls, [GetItem "token"])
  else
    match user_getProfile env ls with
    | Some (Returned response, ls', evs) =>
        Some (Returned (Some (data response)), ls', GetItem "token" :: evs)
    | Some (Thrown error, ls', evs) =>
        Some (Returned None, ls', GetItem "token" :: evs)
    | None => None
    end.

(** [logout] *)
Definition logout (ls : gmap string string) : Run unit :=
  match auth_logout ls with
  | (Returned _, ls1, evs) =>
      (Returned tt, delete "token" ls1, (evs ++ [RemoveItem "token"])%list)
  | (Thrown error, ls1, evs) => (Thrown error, ls1, evs)
  end.

End Auth.

(** ** [hooks/useAuth.ts] *)

Module UseAuth.
Import Js Api.

Definition UNAUTHORIZED : string := "Please log in to continue.".
Definition DEFAULT : string := "An error occurred. Please try again.".
Definition ROUTES_HOME : string := "/".

Record AuthState := mkAuthState {
  user : option JSON;
  loading : bool;
  error : option string;
  isAuthenticated : bool
}.

(** The argument of [useState]. *)
Definition initial : AuthState := mkAuthState None true None false.

(** [err instanceof Error ? err.message : fallback]; every exception class
    of the embedding derives from [Error], [null] does not. *)
Definition message_or (fallback : string) (err : Thrown_value) : string :=
  match err with
  | Some e => exn_message e
  | None => fallback
  end.

(** The updaters [checkAuth] passes to [setState], in source order. *)
Definition checkAuth_begin (prev : AuthState) : AuthState :=
  {| user := user prev; loading := true; error := None;
     isAuthenticated := isAuthenticated prev |}.

Definition checkAuth_no_token (prev : AuthState) : AuthState :=
  {| user := None; loading := false; error := error prev;
     isAuthenticated := false |}.

Definition checkAuth_settle (currentUser : option JSON) (prev : AuthState)
    : AuthState :=
  {| user := currentUser; loading := false; error := error prev;
     isAuthenticated := truthy_value currentUser |}.

Definition checkAuth_catch (err : Thrown_value) (prev : AuthState) : AuthState :=
  {| user := None; loading := false;
     error := Some (message_or UNAUTHORIZED err);
     isAuthenticated := false |}.

(** The updaters of [logout]. *)
Definition logout_begin (prev : AuthState) : AuthState :=
  {| user := user prev; loading := true; error := None;
     isAuthenticated := isAuthenticated prev |}.

Definition logout_done (prev : AuthState) : AuthState :=
  {| user := None; loading := false; error := error prev;
     isAuthenticated := false |}.

Definition logout_catch (err : Thrown_value) (prev : AuthState) : AuthState :=
  {| user := user prev; loading := false;
     error := Some (message_or DEFAULT err);
     isAuthenticated := isAuthenticated prev |}.

(** What [checkAuth] does once its awaited [getCurrentUser] has
    settled. *)
Definition checkAuth_resume (settled : Completion (option JSON))
    (prev : AuthState) : AuthState :=
  match settled with
  | Returned currentUser => checkAuth_settle currentUser prev
  | Thrown err => checkAuth_catch err prev
  end.

(** [checkAuth] run with nothing else touching the hook's state. *)
Definition checkAuth (env : Environment) (st : AuthState)
    (ls : gmap string string)
    : option (AuthState * gmap string string * list Event) :=
  let st1 := checkAuth_begin st in
  let hasToken := Auth.isAuthenticated ls in
  if negb hasToken then
    Some (checkAuth_no_token st1, ls, [GetItem "token"])
  else
    match Auth.getCurrentUser env ls with
    | Some (settled, ls', evs) =>
        Some (checkAuth_resume settled st1, ls', GetItem "token" :: evs)
    | None => None
    end.

(** *** Interleavings

    One mounted hook: its state, the storage, the [checkAuth] calls that
    are suspended in [await authUtils.getCurrentUser()], each with the
    storage its profile request was built from, and the routes pushed.
    [CheckAuthSettled i env] resumes the [i]-th of them, its request having
    met the network [env]. *)
Record Page := mkPage {
  auth : AuthState;
  storage : gmap string string;
  in_flight : list (gmap string string);
  pushed : list string
}.

(** The steps of the event loop that touch the hook.  [logout] awaits
    only promises that are already resolved, so no network completion
    runs inside it. *)
Inductive Action :=
| CheckAuthCalled
| CheckAuthSettled (i : nat) (env : Environment)
| LogoutCalled.

Definition logout (p : Page) : Page :=
  let st1 := logout_begin (auth p) in
  match Auth.logout (storage p) with
  | (Returned _, ls, _) =>
      {| auth := logout_done st1; storage := ls;
         in_flight := in_flight p; pushed := (pushed p ++ [ROUTES_HOME])%list |}
  | (Thrown err, ls, _) =>
      {| auth := logout_catch err st1; storage := ls;
         in_flight := in_flight p; pushed := pushed p |}
  end.

Definition perform (a : Action) (p : Page) : option Page :=
  match a with
  | CheckAuthCalled =>
      let st1 := checkAuth_begin (auth p) in
      if negb (Auth.isAuthenticated (storage p)) then
        Some {| auth := checkAuth_no_token st1; storage := storage p;
                in_flight := in_flight p; pushed := pushed p |}
      else
        Some {| auth := st1; storage := storage p;
                in_flight := (in_flight p ++ [storage p])%list;
                pushed := pushed p |}
  | CheckAuthSettled i env =>
      match in_flight p !! i with
      | None => None
      | Some seen =>
          match Auth.getCurrentUser env seen with
          | Some (settled, _, _) =>
              Some {| auth := checkAuth_resume settled (auth p);
                      storage := storage p;
                      in_flight := delete i (in_flight p);
                      pushed := pushed p |}
          | None => None
          end
      end
  | LogoutCalled => Some (logout p)
  end.

Fixpoint run (actions : list Action) (p : Page) : option Page :=
  match actions with
  | [] => Some p
  | a :: rest =>
      match perform a p with
      | Some p' => run rest p'
      | None => None
      end
  end.

End UseAuth.

(** ** Vocabulary of the statements *)

Module Spec.
Import Js Api.

Definition is_fetch (ev : Event) : bool :=
  match ev with Fetch _ _ => true | _ => false end.

Definition is_read (ev : Event) : bool :=
  match ev with GetItem _ => true | _ => false end.

Definition is_write (ev : Event) : bool :=
  match ev with SetItem _ _ | RemoveItem _ => true | _ => false end.

(** The number of attempts a trace holds. *)
Definition fetches (evs : list Event) : nat := length (List.filter is_fetch evs).

(** The waits of a trace, in order. *)
Definition delays (evs : list Event) : list Z :=
  omap (fun ev => match ev with Delay ms => Some ms | _ => None end) evs.

(** The retry limit and the time limit in force for a call. *)
Definition max_retries (options : RequestOptions) : Z :=
  default MAX_RETRIES (retries options).

Definition time_limit (options : RequestOptions) : Z :=
  default REQUEST_TIMEOUT (timeout options).

(** The two arguments every [fetch] of a call is given. *)
Definition sent_url (env : Environment) (endpoint : string)
    (options : RequestOptions) : Url :=
  buildUrl (API_URL (NEXT_PUBLIC_API_URL env)) endpoint (params options).

Definition sent_init (options : RequestOptions) (ls : gmap string string)
    : FetchInit :=
  {| init_method := method options;
     init_body := body options;
     init_headers := build_headers (ls !! "token") options |}.

(** What the network makes of the [k]-th attempt of a call, and how that
    attempt ends. *)
Definition arrives (env : Environment) (endpoint : string)
    (options : RequestOptions) (ls : gmap string string) (k : nat)
    : Exn + Response :=
  fetch_under_timer (time_limit options)
    (transport env k (sent_url env endpoint options) (sent_init options ls)).

Definition outcome (env : Environment) (endpoint : string)
    (options : RequestOptions) (ls : gmap string string) (k : nat)
    : Completion ApiResponse :=
  try_attempt env (time_limit options) k
    (sent_url env endpoint options) (sent_init options ls).

(** A failed attempt the loop goes on after, when attempts remain. *)
Definition retryable (c : Completion ApiResponse) : Prop :=
  exists e, c = Thrown e /\ is_failed_to_fetch e = false.

(** [k] attempts from the [i]-th on, each followed by its wait. *)
Definition backoff_from (url : Url) (init : FetchInit) (i k : nat) : list Event :=
  flat_map (fun j => [Fetch url init; Delay (1000 * Z.of_nat (S j))]) (seq i k).

(** The first [k] attempts, each followed by its wait: 1000 ms after the
    first, 2000 ms after the second, and so on. *)
Definition backoff (url : Url) (init : FetchInit) (k : nat) : list Event :=
  backoff_from url init 0 k.

(** A body the non-2xx branch of [handleResponse] takes for a validation
    payload. *)
Definition validation_payload (data : JSON) : bool :=
  truthy data && (0 <? Object_keys_length data)%nat.

(** Whether the caller's own headers hold an entry of that name, under any
    capitalisation. *)
Definition caller_sets (name : string) (options : RequestOptions) : bool :=
  existsb (fun kv => String.eqb (lower (fst kv)) (lower name))
    (default [] (headers options)).

(** The exception of reading [data.message] when [data] is [null]. *)
Definition null_body_error : Exn := mkExn TypeError (null_read_message "message").

(** What the non-2xx branch of [handleResponse] throws for a parsed body,
    case by case. *)
Definition http_failure (data : JSON) : Exn :=
  if validation_payload data then new_Error (JSON_stringify data)
  else
    match data with
    | JNull => null_body_error
    | _ => new_Error generic_message
    end.


End Spec.

(** ** Concrete networks and pages *)

Module Scenario.
Import Js Api.

(** The server cannot be reached: [fetch] rejects after 5 ms. *)
Definition unreachable : Arrival := mkArrival 5 (inl failed_to_fetch).

(** The server answers after 40 ms with this status and JSON body. *)
Definition responds (status : Z) (body : JSON) : Arrival :=
  mkArrival 40 (inr (mkResponse status (inr body))).

(** The server answers after a minute. *)
Definition slow (status : Z) (body : JSON) : Arrival :=
  mkArrival 60000 (inr (mkResponse status (inr body))).

Definition profile : JSON :=
  JObj [("id", JStr "7"); ("username", JStr "ada"); ("followers_count", JNum 0)].

Definition field_errors : JSON :=
  JObj [("email", JArr [JStr "This field is required."])].

(** A network that treats the attempts of a call as listed, and every
    later one as [rest]; nothing else touches the storage. *)
Definition scripted (script : list Arrival) (rest : Arrival) : Environment :=
  {| NEXT_PUBLIC_API_URL := None;
     transport := fun k _ _ => nth k script rest;
     during_fetch := fun _ ls => ls;
     during_delay := fun _ ls => ls |}.

(** The same network, with another task removing the token during the
    first wait of the call. *)
Definition scripted_with_logout (script : list Arrival) (rest : Arrival)
    : Environment :=
  {| NEXT_PUBLIC_API_URL := None;
     transport := fun k _ _ => nth k script rest;
     during_fetch := fun _ ls => ls;
     during_delay := fun k ls => if (k =? 0)%nat then delete "token" ls else ls |}.

Definition logged_in : gmap string string := {[ "token" := "T" ]}.
Definition logged_out : gmap string string := ∅.

(** A page just mounted with a token stored, and the same page once its
    first [checkAuth] is suspended in its profile request. *)
Definition mounted : UseAuth.Page :=
  UseAuth.mkPage UseAuth.initial logged_in [] [].

Definition checking : UseAuth.Page :=
  UseAuth.mkPage (UseAuth.checkAuth_begin UseAuth.initial) logged_in [logged_in] [].

Definition once : RequestOptions :=
  mkRequestOptions None None (Some 0) None None None.

Definition with_own_authorization : RequestOptions :=
  mkRequestOptions None None None None (Some [("Authorization", "Basic abc")]) None.

End Scenario.

(** ** The sentences of the specification that the code does not satisfy,
  as they are written *)

Module AsStated.
Import Js Api Spec.

(** A network failure on an attempt that is not the last is followed by
    another attempt. *)
Definition network_failure_is_retried : Prop :=
  forall env endpoint options ls c ls' evs (k : nat),
    request env endpoint options ls = Some (c, ls', evs) ->
    (k < fetches evs)%nat ->
    arrives env endpoint options ls k = inl failed_to_fetch ->
    Z.of_nat k < max_retries options ->
    (S k < fetches evs)%nat.

(** An attempt that receives a non-2xx response is the last attempt, and
    no wait follows it. *)
Definition http_failure_is_not_retried : Prop :=
  forall env endpoint options ls c ls' evs (k : nat) response,
    request env endpoint options ls = Some (c, ls', evs) ->
    (k < fetches evs)%nat ->
    arrives env endpoint options ls k = inr response ->
    ok response = false ->
    fetches evs = S k /\ length (delays evs) = k.


(** The four kinds of failure of the specification. *)
Inductive FailureKind := ValidationError | ApiError | NetworkError | TimeoutError.

(** The kind of failure an attempt meets, in the specification's words:
    a timeout when the attempt exceeds its deadline, a network error when
    the transport could not reach the server, a validation error for a
    non-2xx response with a non-empty payload, an API error for any other
    non-2xx response. *)
Definition failure_kind (timeout : Z) (a : Arrival) : option FailureKind :=
  if timeout <=? latency a then Some TimeoutError
  else
    match settles a with
    | inl e => if is_failed_to_fetch (Some e) then Some NetworkError else None
    | inr response =>
        if ok response then None
        else
          match json response with
          | inr data =>
              if validation_payload data then Some ValidationError else Some ApiError
          | inl _ => None
          end
    end.


(** A check that was in flight when [logout] ran changes nothing when it
    settles. *)
Definition stale_check_is_ignored : Prop :=
  forall env p i p',
    is_Some (UseAuth.in_flight p !! i) ->
    UseAuth.perform (UseAuth.CheckAuthSettled i env) (UseAuth.logout p) = Some p' ->
    UseAuth.auth p' = UseAuth.auth (UseAuth.logout p).

(** Every [fetch] of a call carries the stored token as a bearer
    authorization, and none when no token is stored. *)
Definition bearer_iff_credential : Prop :=
  forall env endpoint options ls c ls' evs url init,
    request env endpoint options ls = Some (c, ls', evs) ->
    In (Fetch url init) evs ->
    Headers_get "Authorization" (init_headers init)
    = if Auth.isAuthenticated ls
      then (fun t => "Bearer " ++ t) <$> Auth.getToken ls
      else None.

End AsStated.

(** ** [lib/api.ts]: the verbs and the endpoints of [api] *)

Module Endpoints.
Import Js Api.

(** The [data] argument of [api.post] and [api.put]: a value that
    serialises as JSON, or a [FormData] instance. *)
Inductive Payload :=
| Json (j : JSON)
| Form (parts : list (string * string)).

(** [JSON.stringify(data)]; a [FormData] has no own enumerable property
    and serialises as the empty object. *)
Definition stringify (data : Payload) : string :=
  match data with
  | Json j => JSON_stringify j
  | Form _ => "{}"
  end.

(** [{ ...options, method: m, body: b }] *)
Definition with_method_body (m : string) (b : BodyInit) (options : RequestOptions)
    : RequestOptions :=
  {| params := params options; timeout := timeout options;
     retries := retries options; method := Some m;
     headers := headers options; body := Some b |}.

(** [{ ...options, params: ps }] *)
Definition with_params (ps : list (string * ParamValue)) (options : RequestOptions)
    : RequestOptions :=
  {| params := Some ps; timeout := timeout options;
     retries := retries options; method := method options;
     headers := headers options; body := body options |}.

(** [api.post] *)
Definition post (env : Environment) (endpoint : string) (data : Payload)
    (options : RequestOptions) :=
  request env endpoint
    (with_method_body "POST"
       (match data with
        | Form parts => BodyFormData parts
        | Json j => BodyText (JSON_stringify j)
        end)
       options).

(** [api.put] *)
Definition put (env : Environment) (endpoint : string) (data : Payload)
    (options : RequestOptions) :=
  request env endpoint (with_method_body "PUT" (BodyText (stringify data)) options).

(** [api.auth.login] *)
Definition auth_login (env : Environment) (email password : string) :=
  post env "/auth/login/"
    (Json (JObj [("email", JStr email); ("password", JStr password)])) no_options.

(** [api.auth.signup] *)
Definition auth_signup (env : Environment) (userData : JSON) :=
  post env "/auth/register/" (Json userData) no_options.

(** [api.auth.refreshToken] *)
Definition auth_refreshToken (env : Environment) :=
  post env "/auth/refresh-token/" (Json (JObj [])) no_options.

(** [api.photos.like] *)
Definition photos_like (env : Environment) (id : string) :=
  post env ("/photos/" ++ id ++ "/like") (Json (JObj [])) no_options.

(** ToBoolean of a query parameter value. *)
Definition param_truthy (v : ParamValue) : bool :=
  match v with
  | PUndefined | PNull => false
  | PString s => negb (String.eqb s EmptyString)
  | PNumber n => negb (n =? 0)
  | PBoolean b => b
  end.

(** [o[k] = v] on a parameter object: an existing key keeps its place. *)
Fixpoint param_set (k : string) (v : ParamValue) (o : list (string * ParamValue))
    : list (string * ParamValue) :=
  match o with
  | [] => [(k, v)]
  | (k', v') :: o' =>
      if String.eqb k k' then (k, v) :: o' else (k', v') :: param_set k v o'
  end.

(** [params?.page || 1] *)
Definition page_or_1 (params : option (list (string * ParamValue))) : ParamValue :=
  let page :=
    match params with
    | Some ps => default PUndefined (assoc "page" ps)
    | None => PUndefined
    end in
  if param_truthy page then page else PNumber 1.

(** [{ ...params, page: params?.page || 1 }] *)
Definition paged (params : option (list (string * ParamValue)))
    : list (string * ParamValue) :=
  param_set "page" (page_or_1 params) (default [] params).

(** [api.collections.getAll] *)
Definition collections_getAll (env : Environment)
    (params : option (list (string * ParamValue))) :=
  get env "/collections" (with_params (paged params) no_options).

(** [api.photos.getAll] *)
Definition photos_getAll (env : Environment)
    (params : option (list (string * ParamValue))) :=
  get env "/photos" (with_params (paged params) no_options).

(** [api.delete] *)
Definition delete (env : Environment) (endpoint : string) (options : RequestOptions) :=
  request env endpoint (with_method "DELETE" options).

(** [api.photos.unlike] *)
Definition photos_unlike (env : Environment) (id : string) :=
  delete env ("/photos/" ++ id ++ "/like") no_options.

End Endpoints.

(** ** [lib/auth.ts]: the operations that store a credential *)

Module Credentials.
Import Js Api.

Definition no_token_received : Exn := new_Error "No token received".

(** [localStorage.setItem('token', v)]: the value is stored as its string
    conversion. *)
Definition store_token (v : JSON) (ls : gmap string string) : gmap string string :=
  <["token" := ToString v]> ls.

(** [login] *)
Definition login (env : Environment) (email password : string)
    (ls : gmap string string) : option (Run Value) :=
  match Endpoints.auth_login env email password ls with
  | Some (Returned response, ls1, evs) =>
      match get_prop (data response) "token" with
      | inl e => Some (Thrown (Some e), ls1, evs)
      | inr token =>
          match token with
          | Some t =>
              if truthy t then
                match get_prop (data response) "user" with
                | inl e =>
                    Some (Thrown (Some e), store_token t ls1,
                          (evs ++ [SetItem "token" (ToString t)])%list)
                | inr user =>
                    Some (Returned user, store_token t ls1,
                          (evs ++ [SetItem "token" (ToString t)])%list)
                end
              else Some (Thrown (Some no_token_received), ls1, evs)
          | None => Some (Thrown (Some no_token_received), ls1, evs)
          end
      end
  | Some (Thrown error, ls1, evs) => Some (Thrown error, ls1, evs)
  | None => None
  end.

(** [signup] *)
Definition signup (env : Environment) (userData : JSON)
    (ls : gmap string string) : option (Run Value) :=
  match Endpoints.auth_signup env userData ls with
  | Some (Returned response, ls1, evs) =>
      if truthy (data response) then
        match get_prop (data response) "token" with
        | inl e => Some (Thrown (Some e), ls1, evs)
        | inr token =>
            match token with
            | Some t =>
                if truthy t then
                  match get_prop (data response) "user" with
                  | inl e =>
                      Some (Thrown (Some e), store_token t ls1,
                            (evs ++ [SetItem "token" (ToString t)])%list)
                  | inr user =>
                      Some (Returned user, store_token t ls1,
                            (evs ++ [SetItem "token" (ToString t)])%list)
                  end
                else Some (Thrown (Some no_token_received), ls1, evs)
            | None => Some (Thrown (Some no_token_received), ls1, evs)
            end
        end
      else Some (Thrown (Some no_token_received), ls1, evs)
  | Some (Thrown error, ls1, evs) => Some (Thrown error, ls1, evs)
  | None => None
  end.

(** [refreshToken] *)
Definition refreshToken (env : Environment) (ls : gmap string string)
    : option (Run ApiResponse) :=
  match Endpoints.auth_refreshToken env ls with
  | Some (Returned response, ls1, evs) =>
      match get_prop (data response) "token" with
      | inl e => Some (Thrown (Some e), ls1, evs)
      | inr token =>
          match token with
          | Some t =>
              if truthy t then
                Some (Returned response, store_token t ls1,
                      (evs ++ [SetItem "token" (ToString t)])%list)
              else Some (Thrown (Some no_token_received), ls1, evs)
          | None => Some (Thrown (Some no_token_received), ls1, evs)
          end
      end
  | Some (Thrown error, ls1, evs) => Some (Thrown error, ls1, evs)
  | None => None
  end.

(** What [requireAuth] does: it sets [window.location.href] or it calls
    back. *)
Inductive Guard := Redirected (href : string) | Called.

(** [requireAuth] *)
Definition requireAuth (ls : gmap string string) : Guard :=
  if negb (Auth.isAuthenticated ls) then Redirected "/login" else Called.

End Credentials.

(** ** [hooks/useAuth.ts]: the operations of the hook *)

Module Hook.
Import Js Api UseAuth.

Definition ROUTES_PROFILE_BASE : string := "/profile".
Definition ROUTES_AUTH_LOGIN : string := "/login".

(** The updaters of [login] and [signup]; a [user] that is [undefined] is
    kept as [null]. *)
Definition login_begin (prev : AuthState) : AuthState :=
  {| user := user prev; loading := true; error := None;
     isAuthenticated := isAuthenticated prev |}.

Definition login_done (u : Value) (prev : AuthState) : AuthState :=
  {| user := u; loading := false; error := error prev; isAuthenticated := true |}.

Definition login_catch (fallback : string) (err : Thrown_value) (prev : AuthState)
    : AuthState :=
  {| user := user prev; loading := false;
     error := Some (message_or fallback err);
     isAuthenticated := isAuthenticated prev |}.

(** [login], run with nothing else touching the hook; [env_login] is the
    network its login request meets, [env_check] the one the profile
    request of its [checkAuth] meets. *)
Definition login (env_login env_check : Environment) (email password : string)
    (p : Page) : option (Completion unit * Page) :=
  let st1 := login_begin (auth p) in
  match Credentials.login env_login email password (storage p) with
  | Some (Returned u, ls1, _) =>
      match checkAuth env_check st1 ls1 with
      | Some (st2, ls2, _) =>
          Some (Returned tt,
                {| auth := login_done u st2; storage := ls2;
                   in_flight := in_flight p;
                   pushed := (pushed p ++ [ROUTES_PROFILE_BASE])%list |})
      | None => None
      end
  | Some (Thrown err, ls1, _) =>
      Some (Thrown err,
            {| auth := login_catch UNAUTHORIZED err st1; storage := ls1;
               in_flight := in_flight p; pushed := pushed p |})
  | None => None
  end.

(** [signup] *)
Definition signup (env_signup env_check : Environment) (userData : JSON)
    (p : Page) : option (Completion unit * Page) :=
  let st1 := login_begin (auth p) in
  match Credentials.signup env_signup userData (storage p) with
  | Some (Returned u, ls1, _) =>
      match checkAuth env_check st1 ls1 with
      | Some (st2, ls2, _) =>
          Some (Returned tt,
                {| auth := login_done u st2; storage := ls2;
                   in_flight := in_flight p;
                   pushed := (pushed p ++ [ROUTES_PROFILE_BASE])%list |})
      | None => None
      end
  | Some (Thrown err, ls1, _) =>
      Some (Thrown err,
            {| auth := login_catch DEFAULT err st1; storage := ls1;
               in_flight := in_flight p; pushed := pushed p |})
  | None => None
  end.

(** [refreshToken]: the boolean it resolves with. *)
Definition refreshToken (env_refresh env_check : Environment) (p : Page)
    : option (bool * Page) :=
  match Credentials.refreshToken env_refresh (storage p) with
  | Some (Returned response, ls1, _) =>
      match get_prop (data response) "token" with
      | inr (Some t) =>
          if truthy t then
            match checkAuth env_check (auth p) (Credentials.store_token t ls1) with
            | Some (st2, ls2, _) =>
                Some (true,
                      {| auth := st2; storage := ls2;
                         in_flight := in_flight p; pushed := pushed p |})
            | None => None
            end
          else
            Some (false,
                  {| auth := auth p; storage := ls1;
                     in_flight := in_flight p; pushed := pushed p |})
      | _ =>
          Some (false,
                {| auth := auth p; storage := ls1;
                   in_flight := in_flight p; pushed := pushed p |})
      end
  | Some (Thrown _, ls1, _) =>
      Some (false,
            {| auth := auth p; storage := ls1;
               in_flight := in_flight p; pushed := pushed p |})
  | None => None
  end.

(** [requireAuth]: whether the callback is called. *)
Definition requireAuth (p : Page) : bool * Page :=
  if negb (isAuthenticated (auth p)) then
    (false,
     {| auth := auth p; storage := storage p; in_flight := in_flight p;
        pushed := (pushed p ++ [ROUTES_AUTH_LOGIN])%list |})
  else (true, p).

(** [handleStorageChange], for an event whose [key] is the given one
    ([null] when the storage was cleared), with the storage as the other
    tab left it. *)
Definition handleStorageChange (env : Environment) (key : option string) (p : Page)
    : option Page :=
  match key with
  | Some k =>
      if String.eqb k "token" then
        match checkAuth env (auth p) (storage p) with
        | Some (st, ls, _) =>
            Some {| auth := st; storage := ls;
                    in_flight := in_flight p; pushed := pushed p |}
        | None => None
        end
      else Some p
  | None => Some p
  end.

End Hook.

(** ** The photo page: [handleLike] *)

Module PhotoDetail.
Import Js Api.

(** The fields of the page's [photo] that [handleLike] reads; [isLiked]
    may be [undefined]. *)
Record Photo := mkPhoto { id : string; isLiked : option bool; likes : Z }.

Definition liked (photo : Photo) : bool := default false (isLiked photo).

(** [handleLike]: the [photo] state it leaves. *)
Definition handleLike (env : Environment) (photo : option Photo)
    (ls : gmap string string)
    : option (option Photo * gmap string string * list Event) :=
  match photo with
  | None => Some (None, ls, [])
  | Some ph =>
      match (if liked ph then Endpoints.photos_unlike env (id ph) ls
             else Endpoints.photos_like env (id ph) ls) with
      | Some (Returned _, ls', evs) =>
          Some (Some {| id := id ph;
                        isLiked := Some (negb (liked ph));
                        likes := if liked ph then likes ph - 1 else likes ph + 1 |},
                ls', evs)
      | Some (Thrown _, ls', evs) => Some (Some ph, ls', evs)
      | None => None
      end
  end.

End PhotoDetail.

(** ** What the platform asks of a call

    [new Headers] and [new URL] are the browser's.  The first strips the
    white space around a value and throws a [TypeError] on a name or a value
    that is not legal, before the loop of [request] is entered; the second
    throws a [TypeError], inside the [try] block, on an address it cannot
    parse.  [Headers_append] and [buildUrl] above are what the two do when
    they do not throw and have nothing to strip.  The conditions below are
    sufficient for that; a statement that pins the value of a header, or
    that says attempts are made without assuming one that was, is stated
    under them. *)

Module Platform.
Import Js Api.

Definition code (c : ascii) : N := N_of_ascii c.

Definition is_lower (c : ascii) : bool := ((97 <=? code c) && (code c <=? 122))%N.
Definition is_upper (c : ascii) : bool := ((65 <=? code c) && (code c <=? 90))%N.
Definition is_digit (c : ascii) : bool := ((48 <=? code c) && (code c <=? 57))%N.

Fixpoint all_chars (ok : ascii -> bool) (s : string) : bool :=
  match s with
  | EmptyString => true
  | String c s' => ok c && all_chars ok s'
  end.

Definition first_char (s : string) : option ascii :=
  match s with
  | EmptyString => None
  | String c _ => Some c
  end.

Fixpoint last_char (s : string) : option ascii :=
  match s with
  | EmptyString => None
  | String c EmptyString => Some c
  | String _ s' => last_char s'
  end.

Definition is_space (c : option ascii) : bool :=
  match c with
  | Some c => (code c =? 32)%N
  | None => false
  end.

(** A header name made of letters, digits, hyphens and underscores: a
    legal name. *)
Definition legal_name (name : string) : bool :=
  negb (String.eqb name EmptyString)
  && all_chars (fun c => is_lower c || is_upper c || is_digit c
                         || (code c =? 45)%N || (code c =? 95)%N) name.

(** A header value of printable ASCII characters that neither starts nor
    ends with a space: a legal value, which is stored as it is. *)
Definition kept_value (value : string) : bool :=
  all_chars (fun c => (32 <=? code c) && (code c <=? 126))%N value
  && negb (is_space (first_char value))
  && negb (is_space (last_char value)).

(** The record [request] hands to [new Headers] has only such names and
    values. *)
Definition can_build_headers (token : option string) (options : RequestOptions)
    : bool :=
  forallb (fun kv => legal_name (fst kv) && kept_value (snd kv))
    (spread
       (spread [("Content-Type", "application/json")] (authorization_entry token))
       (default [] (headers options))).






End Platform.

(** ** What a settled check shows *)

Module Settled.
Import Js Api.

(** The value [getCurrentUser] resolves with for a check that began on the
    storage [seen] and whose profile request completed as [c]: [null]
    without a token or on a rejection, the data of the response
    otherwise. *)
Definition current_user (seen : gmap string string) (c : Completion ApiResponse)
    : option JSON :=
  if Auth.isAuthenticated seen then
    match c with
    | Returned response => Some (data response)
    | Thrown _ => None
    end
  else None.

End Settled.

(** ** A sentence of the specification on retries, as it is written *)

Module AsStatedRetry.
Import Js Api Spec.

(** A failure the specification calls retryable: the transport could not
    reach the server, or the attempt exceeded its deadline. *)
Definition transient (timeout : Z) (a : Arrival) : bool :=
  match AsStated.failure_kind timeout a with
  | Some AsStated.NetworkError | Some AsStated.TimeoutError => true
  | _ => false
  end.

(** N-1 attempts that fail with retryable failures and an N-th that
    succeeds, N-1 below the retry limit: the call returns the result of the
    N-th after N attempts and waits of 1000, ..., (N-1)*1000 ms. *)
Definition succeeds_after_transient_failures : Prop :=
  forall env endpoint options ls (N : nat) (r : ApiResponse),
    (1 <= N)%nat ->
    Z.of_nat N - 1 < max_retries options ->
    (forall k, (k < N - 1)%nat ->
       transient (time_limit options)
         (transport env k (sent_url env endpoint options) (sent_init options ls))
       = true) ->
    outcome env endpoint options ls (N - 1) = Returned r ->
    exists ls' evs,
      request env endpoint options ls = Some (Returned r, ls', evs)
      /\ fetches evs = N
      /\ delays evs = map (fun k => 1000 * Z.of_nat k) (seq 1 (N - 1)).

End AsStatedRetry.

(** ** The retry loop *)

Section Loop.
Import Js Api Spec.

Variables (env : Environment) (endpoint : string)
          (params : option (list (string * ParamValue)))
          (timeout retries : Z) (init : FetchInit).

Let url := buildUrl (API_URL (NEXT_PUBLIC_API_URL env)) endpoint params.
Let loop := attempts env endpoint params timeout retries init.
Let ends (k : nat) := try_attempt env timeout k url init.

Lemma attempts_beyond fuel attempt lastError ls :
  retries < attempt ->
  loop fuel attempt lastError ls = Some (Thrown lastError, ls, []).
Proof.
  intros H. unfold loop.
  destruct fuel; simpl; destruct (Z.leb_spec attempt retries); auto; lia.
Qed.

Lemma attempts_returned fuel i lastError ls r :
  Z.of_nat i <= retries ->
  ends i = Returned r ->
  loop (S fuel) (Z.of_nat i) lastError ls
  = Some (Returned r, during_fetch env i ls, [Fetch url init]).
Proof.
  intros Hle Hr. unfold loop, ends, url in *. simpl.
  destruct (Z.leb_spec (Z.of_nat i) retries); [|lia].
  rewrite Nat2Z.id, Hr. reflexivity.
Qed.

Lemma attempts_network fuel i lastError ls e :
  Z.of_nat i <= retries ->
  ends i = Thrown e ->
  is_failed_to_fetch e = true ->
  loop (S fuel) (Z.of_nat i) lastError ls
  = Some (Thrown (Some (new_Error network_message)),
          during_fetch env i ls, [Fetch url init]).
Proof.
  intros Hle He Hn. unfold loop, ends, url in *. simpl.
  destruct (Z.leb_spec (Z.of_nat i) retries); [|lia].
  rewrite Nat2Z.id, He, Hn. reflexivity.
Qed.

Lemma attempts_last fuel i lastError ls e :
  Z.of_nat i = retries ->
  ends i = Thrown e ->
  is_failed_to_fetch e = false ->
  loop (S fuel) (Z.of_nat i) lastError ls
  = Some (Thrown e, during_fetch env i ls, [Fetch url init]).
Proof.
  intros Hle He Hn. unfold loop, ends, url in *. simpl.
  destruct (Z.leb_spec (Z.of_nat i) retries); [|lia].
  rewrite Nat2Z.id, He, Hn.
  destruct (Z.eqb_spec (Z.of_nat i) retries); [reflexivity | lia].
Qed.

Lemma attempts_retry fuel i lastError ls e :
  Z.of_nat i < retries ->
  ends i = Thrown e ->
  is_failed_to_fetch e = false ->
  loop (S fuel) (Z.of_nat i) lastError ls
  = match loop fuel (Z.of_nat (S i)) e
            (during_delay env i (during_fetch env i ls)) with
    | Some (c, ls', evs) =>
        Some (c, ls', Fetch url init :: Delay (1000 * Z.of_nat (S i)) :: evs)
    | None => None
    end.
Proof.
  intros Hlt He Hn. unfold loop, ends, url in *. simpl attempts at 1.
  destruct (Z.leb_spec (Z.of_nat i) retries); [|lia].
  rewrite Nat2Z.id, He, Hn.
  destruct (Z.eqb_spec (Z.of_nat i) retries); [lia|].
  replace (Z.of_nat i + 1) with (Z.of_nat (S i)) by lia.
  unfold RETRY_DELAY. reflexivity.
Qed.

(** Failed attempts that are not the last are skipped over, each leaving
    its [fetch] and its wait in the trace. *)
Lemma attempts_skip m : forall i fuel lastError ls,
  Z.of_nat (i + m) <= retries ->
  (forall j, (i <= j < i + m)%nat -> retryable (ends j)) ->
  exists lastError' ls0,
    loop (m + fuel) (Z.of_nat i) lastError ls
    = match loop fuel (Z.of_nat (i + m)) lastError' ls0 with
      | Some (c, ls', evs) => Some (c, ls', (backoff_from url init i m ++ evs)%list)
      | None => None
      end.
Proof.
  induction m as [|m IH]; intros i fuel lastError ls Hle Hfail.
  - exists lastError, ls. rewrite Nat.add_0_r. simpl.
    destruct (loop fuel (Z.of_nat i) lastError ls) as [[[c ls'] evs]|]; reflexivity.
  - destruct (Hfail i ltac:(lia)) as (e & He & Hn).
    destruct (IH (S i) fuel e (during_delay env i (during_fetch env i ls)))
      as (lastError' & ls0 & Hrec).
    { lia. }
    { intros j Hj. apply Hfail. lia. }
    exists lastError', ls0.
    replace (S m + fuel)%nat with (S (m + fuel)) by lia.
    rewrite (attempts_retry _ _ _ _ e) by (auto; lia).
    rewrite Hrec. replace (S i + m)%nat with (i + S m)%nat by lia.
    destruct (loop fuel (Z.of_nat (i + S m)) lastError' ls0) as [[[c ls'] evs]|];
      reflexivity.
Qed.

(** The loop ends whenever its fuel covers the attempts left. *)
Lemma attempts_total fuel : forall attempt lastError ls,
  retries + 1 - attempt <= Z.of_nat fuel ->
  exists c ls' evs, loop fuel attempt lastError ls = Some (c, ls', evs).
Proof.
  unfold loop.
  induction fuel as [|fuel IH]; intros attempt lastError ls Hfuel.
  - simpl. destruct (Z.leb_spec attempt retries); [lia | eauto].
  - simpl. destruct (Z.leb_spec attempt retries); [|eauto].
    destruct (try_attempt _ _ _ _ _) as [r|e]; [eauto|].
    destruct (is_failed_to_fetch e); [eauto|].
    destruct (Z.eqb_spec attempt retries); [eauto|].
    destruct (IH (attempt + 1) e
                (during_delay env (Z.to_nat attempt)
                   (during_fetch env (Z.to_nat attempt) ls)))
      as (c & ls' & evs & Hrec); [lia|].
    rewrite Hrec. eauto.
Qed.

(** The loop reads no storage and gives every [fetch] the same
    arguments. *)
Lemma attempts_events fuel : forall attempt lastError ls c ls' evs,
  loop fuel attempt lastError ls = Some (c, ls', evs) ->
  Forall (fun ev => ev = Fetch url init \/ exists ms, ev = Delay ms) evs.
Proof.
  unfold loop.
  induction fuel as [|fuel IH]; intros attempt lastError ls c ls' evs; simpl.
  - destruct (attempt <=? retries); [discriminate|].
    intros [= <- <- <-]. constructor.
  - destruct (attempt <=? retries).
    2:{ intros [= <- <- <-]. constructor. }
    destruct (try_attempt _ _ _ _ _) as [r|e].
    { intros [= <- <- <-]. repeat constructor. }
    destruct (is_failed_to_fetch e).
    { intros [= <- <- <-]. repeat constructor. }
    destruct (attempt =? retries).
    { intros [= <- <- <-]. repeat constructor. }
    destruct (attempts _ _ _ _ _ _ fuel _ _ _) as [[[c0 ls0] evs0]|] eqn:Hrec;
      [|discriminate].
    intros [= <- <- <-].
    constructor; [left; reflexivity|].
    constructor; [right; eauto|].
    eapply IH; eauto.
Qed.

(** What the loop can throw. *)
Lemma attempts_thrown fuel : forall attempt lastError ls v ls' evs,
  attempt <= retries ->
  loop fuel attempt lastError ls = Some (Thrown v, ls', evs) ->
  v = Some (new_Error network_message)
  \/ (ends (Z.to_nat retries) = Thrown v /\ is_failed_to_fetch v = false).
Proof.
  unfold loop, ends, url.
  induction fuel as [|fuel IH]; intros attempt lastError ls v ls' evs Hle; simpl.
  - destruct (Z.leb_spec attempt retries); [discriminate | lia].
  - destruct (Z.leb_spec attempt retries); [|lia].
    destruct (try_attempt env timeout (Z.to_nat attempt) _ _) as [r|e] eqn:He;
      [intros [=]|].
    destruct (is_failed_to_fetch e) eqn:Hn.
    { intros [= <- <- <-]. left; reflexivity. }
    destruct (Z.eqb_spec attempt retries) as [->|Hne].
    { intros [= <- <- <-]. right; split; assumption. }
    destruct (attempts _ _ _ _ _ _ fuel _ _ _) as [[[c0 ls0] evs0]|] eqn:Hrec;
      [|discriminate].
    intros [= -> <- <-].
    eapply IH; [|exact Hrec]. lia.
Qed.

End Loop.

(** ** Traces *)

Section Traces.
Import Js Api Spec.

Lemma fetches_app evs1 evs2 :
  fetches (evs1 ++ evs2) = (fetches evs1 + fetches evs2)%nat.
Proof. unfold fetches. rewrite List.filter_app, length_app. reflexivity. Qed.

Lemma delays_app evs1 evs2 : delays (evs1 ++ evs2) = (delays evs1 ++ delays evs2)%list.
Proof. unfold delays. apply omap_app. Qed.

Lemma fetches_backoff_from url init k : forall i,
  fetches (backoff_from url init i k) = k.
Proof.
  unfold backoff_from.
  induction k as [|k IH]; intros i; [reflexivity|].
  simpl. change (fetches (Fetch url init :: Delay (1000 * Z.of_nat (S i))
                   :: flat_map (fun j => [Fetch url init; Delay (1000 * Z.of_nat (S j))])
                        (seq (S i) k)) = S k).
  unfold fetches in *. simpl. rewrite IH. reflexivity.
Qed.

Lemma delays_backoff_from url init k : forall i,
  delays (backoff_from url init i k)
  = map (fun j => 1000 * Z.of_nat j) (seq (S i) k).
Proof.
  unfold backoff_from.
  induction k as [|k IH]; intros i; [reflexivity|].
  simpl seq. simpl flat_map. simpl map.
  change (delays (Fetch url init :: Delay (1000 * Z.of_nat (S i))
                   :: flat_map (fun j => [Fetch url init; Delay (1000 * Z.of_nat (S j))])
                        (seq (S i) k))
          = 1000 * Z.of_nat (S i) :: map (fun j => 1000 * Z.of_nat j) (seq (S (S i)) k)).
  unfold delays in *. simpl. rewrite IH. reflexivity.
Qed.

Lemma request_unfold env endpoint options ls :
  request env endpoint options ls
  = match attempts env endpoint (params options) (time_limit options)
            (max_retries options) (sent_init options ls)
            (Z.to_nat (max_retries options + 1)) 0 None ls with
    | Some (c, ls', evs) => Some (c, ls', GetItem "token" :: evs)
    | None => None
    end.
Proof. reflexivity. Qed.

(** [request] always ends: the fuel it gives its loop is enough. *)
Lemma request_total env endpoint options ls :
  exists c ls' evs, request env endpoint options ls = Some (c, ls', evs).
Proof.
  rewrite request_unfold.
  destruct (attempts_total env endpoint (params options) (time_limit options)
              (max_retries options) (sent_init options ls)
              (Z.to_nat (max_retries options + 1)) 0 None ls)
    as (c & ls' & evs & H); [lia|].
  rewrite H. eauto.
Qed.

(** A call whose first [k] attempts fail without ending the loop reaches
    its attempt [k] with [k] waits behind it. *)
Lemma request_skip env endpoint options ls (k : nat) :
  Z.of_nat k <= max_retries options ->
  (forall j, (j < k)%nat -> retryable (outcome env endpoint options ls j)) ->
  exists lastError ls0 fuel,
    Z.of_nat fuel = max_retries options - Z.of_nat k /\
    request env endpoint options ls
    = match attempts env endpoint (params options) (time_limit options)
              (max_retries options) (sent_init options ls)
              (S fuel) (Z.of_nat k) lastError ls0 with
      | Some (c, ls', evs) =>
          Some (c, ls',
                GetItem "token"
                :: (backoff (sent_url env endpoint options) (sent_init options ls) k
                    ++ evs)%list)
      | None => None
      end.
Proof.
  intros Hk Hfail. rewrite request_unfold.
  set (fuel := (Z.to_nat (max_retries options + 1) - S k)%nat).
  replace (Z.to_nat (max_retries options + 1)) with (k + S fuel)%nat by lia.
  destruct (attempts_skip env endpoint (params options) (time_limit options)
              (max_retries options) (sent_init options ls) k 0 (S fuel) None ls)
    as (lastError & ls0 & Hskip).
  { simpl. lia. }
  { intros j Hj. apply Hfail. lia. }
  exists lastError, ls0, fuel. split; [lia|].
  change (Z.of_nat 0) with 0 in Hskip. rewrite Hskip. simpl (0 + k)%nat.
  destruct (attempts _ _ _ _ _ _ (S fuel) _ _ _) as [[[c ls'] evs]|]; reflexivity.
Qed.

End Traces.

(** ** Properties of the request pipeline *)

Section Pipeline.
  Import Js Api Spec.

(** C3, amended.  When the first N-1 attempts of a call fail with failures
    the loop goes on after, that is any failure but the transport's network
    failure, and the N-th succeeds, N-1 being below the retry limit,
    [request] returns the result of the N-th attempt after exactly N
    attempts, separated by waits of 1000, 2000, ..., (N-1)*1000 ms.  The
    retry limit is 3 when the caller gives none. *)
Theorem request_succeeds_on_nth_attempt
    env endpoint options ls (N : nat) (r : ApiResponse) :
  (1 <= N)%nat ->
  Z.of_nat N - 1 < max_retries options ->
  (forall k, (k < N - 1)%nat -> retryable (outcome env endpoint options ls k)) ->
  outcome env endpoint options ls (N - 1) = Returned r ->
  exists ls' evs,
    request env endpoint options ls = Some (Returned r, ls', evs)
    /\ evs = GetItem "token"
             :: (backoff (sent_url env endpoint options) (sent_init options ls) (N - 1)
                 ++ [Fetch (sent_url env endpoint options) (sent_init options ls)])%list
    /\ fetches evs = N
    /\ delays evs = map (fun k => 1000 * Z.of_nat k) (seq 1 (N - 1))
    /\ (retries options = None -> max_retries options = 3).
Proof.
  intros HN Hlim Hfail Hok.
  destruct (request_skip env endpoint options ls (N - 1))
    as (lastError & ls0 & fuel & _ & Hreq); [lia | exact Hfail |].
  rewrite (attempts_returned _ _ _ _ _ _ _ _ _ _ r) in Hreq by (auto; lia).
  do 2 eexists. split; [exact Hreq|]. split; [reflexivity|].
  split; [|split].
  - change (fetches ([GetItem "token"]
              ++ backoff (sent_url env endpoint options) (sent_init options ls) (N - 1)
              ++ [Fetch (sent_url env endpoint options) (sent_init options ls)]) = N).
    rewrite !fetches_app. unfold backoff. rewrite fetches_backoff_from.
    unfold fetches. simpl. lia.
  - change (delays ([GetItem "token"]
              ++ backoff (sent_url env endpoint options) (sent_init options ls) (N - 1)
              ++ [Fetch (sent_url env endpoint options) (sent_init options ls)])
            = map (fun k => 1000 * Z.of_nat k) (seq 1 (N - 1))).
    rewrite !delays_app. unfold backoff. rewrite delays_backoff_from.
    unfold delays. simpl. rewrite app_nil_r. reflexivity.
  - intros Hnone. unfold max_retries. rewrite Hnone. reflexivity.
Qed.

(** A slow answer, then a 503, then the profile: three attempts, two waits. *)
Lemma request_succeeds_on_nth_attempt_witness :
  exists ls' evs,
    request (Scenario.scripted [Scenario.slow 200 Scenario.profile;
                                Scenario.responds 503 (JObj [])]
               (Scenario.responds 200 Scenario.profile))
      "/users/profile/" no_options Scenario.logged_in
    = Some (Returned (mkApiResponse Scenario.profile 200 None), ls', evs)
    /\ fetches evs = 3%nat
    /\ delays evs = [1000; 2000].
Proof.
  destruct (request_succeeds_on_nth_attempt
              (Scenario.scripted [Scenario.slow 200 Scenario.profile;
                                  Scenario.responds 503 (JObj [])]
                 (Scenario.responds 200 Scenario.profile))
              "/users/profile/" no_options Scenario.logged_in 3
              (mkApiResponse Scenario.profile 200 None))
    as (ls' & evs & Hreq & _ & Hn & Hd & _).
  - lia.
  - vm_compute. reflexivity.
  - intros k Hk.
    assert (k = 0 \/ k = 1)%nat as [-> | ->] by lia.
    + exists (Some abort_error). split; reflexivity.
    + exists (Some (new_Error generic_message)). split; reflexivity.
  - reflexivity.
  - exists ls', evs. auto.
Defined.

(** C3, as stated, fails: the server cannot be reached on the first
    attempt and serves the profile on the second, one failure the
    specification calls retryable and then a success, below the limit of
    three; the call makes one attempt and rejects. *)
Lemma succeeds_after_transient_failures_fails :
  ~ AsStatedRetry.succeeds_after_transient_failures.
Proof.
  intros H.
  destruct (H (Scenario.scripted [Scenario.unreachable]
                 (Scenario.responds 200 Scenario.profile))
              "/users/profile/" no_options Scenario.logged_in 2%nat
              (mkApiResponse Scenario.profile 200 None))
    as (ls' & evs & Hreq & _).
  - lia.
  - vm_compute. reflexivity.
  - intros k Hk. assert (k = 0)%nat as -> by lia. reflexivity.
  - reflexivity.
  - vm_compute in Hreq. discriminate Hreq.
Qed.


Lemma handleResponse_not_ok response data :
  ok response = false ->
  json response = inr data ->
  handleResponse response = Thrown (Some (http_failure data)).
Proof.
  intros Hok Hjson. unfold handleResponse, http_failure, validation_payload.
  rewrite Hjson, Hok. simpl negb. cbv iota.
  destruct (truthy data && (0 <? Object_keys_length data)%nat) eqn:Hv; [reflexivity|].
  destruct data as [| b | n | s | items | fields]; try reflexivity.
  destruct fields as [|kv fields]; [reflexivity | discriminate Hv].
Qed.

Lemma http_failure_goes_on data : is_failed_to_fetch (Some (http_failure data)) = false.
Proof.
  unfold http_failure.
  destruct (validation_payload data); [reflexivity|].
  destruct data; reflexivity.
Qed.

Lemma attempts_start env endpoint params timeout retries init fuel attempt lastError ls
    c ls' evs :
  attempt <= retries ->
  attempts env endpoint params timeout retries init fuel attempt lastError ls
  = Some (c, ls', evs) ->
  exists evs',
    evs = Fetch (buildUrl (API_URL (NEXT_PUBLIC_API_URL env)) endpoint params) init :: evs'.
Proof.
  intros Hle. destruct fuel as [|fuel]; simpl;
    destruct (Z.leb_spec attempt retries); try lia; [discriminate|].
  destruct (try_attempt _ _ _ _ _) as [r|e]; [intros [= <- <- <-]; eauto|].
  destruct (is_failed_to_fetch e); [intros [= <- <- <-]; eauto|].
  destruct (attempt =? retries); [intros [= <- <- <-]; eauto|].
  destruct (attempts _ _ _ _ _ _ fuel _ _ _) as [[[c0 ls0] evs0]|]; [|discriminate].
  intros [= <- <- <-]; eauto.
Qed.

(** A failure that does not end the loop, met at attempt [k] after [k]
    such failures: with attempts left, a wait of [1000 * (k + 1)] ms and
    another [fetch] follow; on the last attempt the call rejects with it. *)
Lemma request_goes_on env endpoint options ls (k : nat) e :
  Z.of_nat k <= max_retries options ->
  (forall j, (j < k)%nat -> retryable (outcome env endpoint options ls j)) ->
  outcome env endpoint options ls k = Thrown e ->
  is_failed_to_fetch e = false ->
  exists c ls' rest,
    request env endpoint options ls
    = Some (c, ls',
            GetItem "token"
            :: (backoff (sent_url env endpoint options) (sent_init options ls) k
                ++ Fetch (sent_url env endpoint options) (sent_init options ls)
                   :: rest)%list)
    /\ (Z.of_nat k < max_retries options ->
        exists rest',
          rest = Delay (1000 * Z.of_nat (S k))
                 :: Fetch (sent_url env endpoint options) (sent_init options ls)
                 :: rest')
    /\ (Z.of_nat k = max_retries options -> rest = [] /\ c = Thrown e).
Proof.
  intros Hk Hfail He Hn.
  destruct (request_skip env endpoint options ls k Hk Hfail)
    as (lastError & ls0 & fuel & Hfuel & Hreq).
  destruct (Z.eq_dec (Z.of_nat k) (max_retries options)) as [Heq|Hne].
  - rewrite (attempts_last _ _ _ _ _ _ _ _ _ _ e) in Hreq by auto.
    do 3 eexists. split; [exact Hreq|]. split; [lia | auto].
  - rewrite (attempts_retry _ _ _ _ _ _ _ _ _ _ e) in Hreq by (auto; lia).
    destruct (attempts_total env endpoint (params options) (time_limit options)
                (max_retries options) (sent_init options ls) fuel
                (Z.of_nat (S k)) e
                (during_delay env k (during_fetch env k ls0)))
      as (c & ls' & evs & Hrec); [lia|].
    rewrite Hrec in Hreq.
    apply attempts_start in Hrec; [|lia]. destruct Hrec as (evs' & ->).
    do 3 eexists. split; [exact Hreq|]. split; [eauto | lia].
Qed.


(** *** Failures and the retry loop *)

Lemma unreachable_run :
  request (Scenario.scripted [] Scenario.unreachable) "/photos" no_options
    Scenario.logged_out
  = Some (Thrown (Some (new_Error network_message)), Scenario.logged_out,
          [GetItem "token";
           Fetch (sent_url (Scenario.scripted [] Scenario.unreachable) "/photos" no_options)
             (sent_init no_options Scenario.logged_out)]).
Proof. vm_compute. reflexivity. Qed.


(** C1, as stated, fails: with the server unreachable and three retries
    allowed, the call makes one attempt and no second one. *)
Lemma network_failure_is_retried_fails : ~ AsStated.network_failure_is_retried.
Proof.
  intros H.
  specialize (H _ _ _ _ _ _ _ 0%nat unreachable_run).
  cut (1 < 1)%nat; [lia|].
  apply H; [vm_compute; lia | reflexivity | vm_compute; reflexivity].
Qed.

(** C1, amended.  An attempt that fails with the transport's network
    failure (a [TypeError] whose message is 'Failed to fetch') ends the loop
    at once, whatever retries are left: after the attempts and waits of the
    failures before it, the call makes that attempt and nothing more, and
    rejects with a new [Error] carrying the fixed network message. *)
Theorem request_stops_at_network_failure
    env endpoint options ls (k : nat) (e : Thrown_value) :
  Z.of_nat k <= max_retries options ->
  (forall j, (j < k)%nat -> retryable (outcome env endpoint options ls j)) ->
  outcome env endpoint options ls k = Thrown e ->
  is_failed_to_fetch e = true ->
  exists ls' evs,
    request env endpoint options ls
    = Some (Thrown (Some (new_Error network_message)), ls', evs)
    /\ evs = GetItem "token"
             :: (backoff (sent_url env endpoint options) (sent_init options ls) k
                 ++ [Fetch (sent_url env endpoint options) (sent_init options ls)])%list
    /\ fetches evs = S k
    /\ delays evs = map (fun j => 1000 * Z.of_nat j) (seq 1 k).
Proof.
  intros Hk Hfail He Hn.
  destruct (request_skip env endpoint options ls k Hk Hfail)
    as (lastError & ls0 & fuel & _ & Hreq).
  rewrite (attempts_network _ _ _ _ _ _ _ _ _ _ e) in Hreq by auto.
  do 2 eexists. split; [exact Hreq|]. split; [reflexivity|]. split.
  - change (fetches ([GetItem "token"]
              ++ backoff (sent_url env endpoint options) (sent_init options ls) k
              ++ [Fetch (sent_url env endpoint options) (sent_init options ls)]) = S k).
    rewrite !fetches_app. unfold backoff. rewrite fetches_backoff_from.
    unfold fetches. simpl. lia.
  - change (delays ([GetItem "token"]
              ++ backoff (sent_url env endpoint options) (sent_init options ls) k
              ++ [Fetch (sent_url env endpoint options) (sent_init options ls)])
            = map (fun j => 1000 * Z.of_nat j) (seq 1 k)).
    rewrite !delays_app. unfold backoff. rewrite delays_backoff_from.
    unfold delays. simpl. rewrite app_nil_r. reflexivity.
Qed.

(** A 503, then the server is unreachable: two attempts, one wait, and the
    two retries left are not used. *)
Lemma request_stops_at_network_failure_witness :
  exists ls' evs,
    request (Scenario.scripted [Scenario.responds 503 (JObj [])] Scenario.unreachable)
      "/photos" no_options Scenario.logged_in
    = Some (Thrown (Some (new_Error network_message)), ls', evs)
    /\ fetches evs = 2%nat
    /\ delays evs = [1000].
Proof.
  destruct (request_stops_at_network_failure
              (Scenario.scripted [Scenario.responds 503 (JObj [])] Scenario.unreachable)
              "/photos" no_options Scenario.logged_in 1 (Some failed_to_fetch))
    as (ls' & evs & Hreq & _ & Hn & Hd).
  - vm_compute. intros [=].
  - intros j Hj. assert (j = 0)%nat as -> by lia.
    exists (Some (new_Error generic_message)). split; reflexivity.
  - reflexivity.
  - reflexivity.
  - exists ls', evs. auto.
Defined.

Lemma rejected_login_run :
  exists c ls',
    request (Scenario.scripted [] (Scenario.responds 400 Scenario.field_errors))
      "/auth/login/" no_options Scenario.logged_out
    = Some (c, ls',
            GetItem "token"
            :: (backoff (sent_url (Scenario.scripted [] (Scenario.responds 400 Scenario.field_errors))
                           "/auth/login/" no_options)
                  (sent_init no_options Scenario.logged_out) 3
                ++ [Fetch (sent_url (Scenario.scripted [] (Scenario.responds 400 Scenario.field_errors))
                             "/auth/login/" no_options)
                      (sent_init no_options Scenario.logged_out)])%list).
Proof. do 2 eexists. vm_compute. reflexivity. Qed.

(** C2, as stated, fails: a login answered 400 with field errors is
    attempted four times, with three waits. *)
Lemma http_failure_is_not_retried_fails : ~ AsStated.http_failure_is_not_retried.
Proof.
  intros H. destruct rejected_login_run as (c & ls' & Hrun).
  destruct (H _ _ _ _ _ _ _ 0%nat (mkResponse 400 (inr Scenario.field_errors)) Hrun)
    as [Hn _].
  - vm_compute. lia.
  - reflexivity.
  - reflexivity.
  - vm_compute in Hn. discriminate Hn.
Qed.

(** C2, amended.  A non-2xx response whose body parses is a failure like
    any other that is not the transport's network failure: [handleResponse]
    throws inside the [try] block, and when attempts are left the call
    waits [1000 * (attempt + 1)] ms and fetches again; the failure is
    propagated only when it is met on the last attempt. *)
Theorem http_failure_is_retried
    env endpoint options ls (k : nat) (response : Response) (data : JSON) :
  Z.of_nat k <= max_retries options ->
  (forall j, (j < k)%nat -> retryable (outcome env endpoint options ls j)) ->
  arrives env endpoint options ls k = inr response ->
  ok response = false ->
  json response = inr data ->
  exists c ls' rest,
    outcome env endpoint options ls k = Thrown (Some (http_failure data))
    /\ request env endpoint options ls
       = Some (c, ls',
               GetItem "token"
               :: (backoff (sent_url env endpoint options) (sent_init options ls) k
                   ++ Fetch (sent_url env endpoint options) (sent_init options ls)
                      :: rest)%list)
    /\ (Z.of_nat k < max_retries options ->
        exists rest',
          rest = Delay (1000 * Z.of_nat (S k))
                 :: Fetch (sent_url env endpoint options) (sent_init options ls)
                 :: rest')
    /\ (Z.of_nat k = max_retries options ->
        rest = [] /\ c = Thrown (Some (http_failure data))).
Proof.
  intros Hk Hfail Harr Hok Hjson.
  assert (Hout : outcome env endpoint options ls k = Thrown (Some (http_failure data))).
  { unfold outcome, try_attempt. unfold arrives in Harr. rewrite Harr.
    apply handleResponse_not_ok; assumption. }
  destruct (request_goes_on env endpoint options ls k _ Hk Hfail Hout
              (http_failure_goes_on data))
    as (c & ls' & rest & Hreq & Hmore & Hlast).
  exists c, ls', rest. auto.
Qed.

(** A 400 with field errors on the first attempt of a default call: a wait
    of 1000 ms and a second [fetch] follow. *)
Lemma http_failure_is_retried_witness :
  exists c ls' rest',
    request (Scenario.scripted [] (Scenario.responds 400 Scenario.field_errors))
      "/auth/login/" no_options Scenario.logged_out
    = Some (c, ls',
            [GetItem "token";
             Fetch (sent_url (Scenario.scripted [] (Scenario.responds 400 Scenario.field_errors))
                      "/auth/login/" no_options)
               (sent_init no_options Scenario.logged_out);
             Delay 1000;
             Fetch (sent_url (Scenario.scripted [] (Scenario.responds 400 Scenario.field_errors))
                      "/auth/login/" no_options)
               (sent_init no_options Scenario.logged_out)] ++ rest')%list.
Proof.
  destruct (http_failure_is_retried
              (Scenario.scripted [] (Scenario.responds 400 Scenario.field_errors))
              "/auth/login/" no_options Scenario.logged_out 0
              (mkResponse 400 (inr Scenario.field_errors)) Scenario.field_errors)
    as (c & ls' & rest & _ & Hreq & Hmore & _).
  - vm_compute. intros [=].
  - intros j Hj. lia.
  - reflexivity.
  - reflexivity.
  - reflexivity.
  - destruct Hmore as (rest' & ->); [vm_compute; reflexivity|].
    exists c, ls', rest'. exact Hreq.
Defined.






(** *** Response normalisation *)

Lemma handleResponse_null response :
  json response = inr JNull ->
  handleResponse response = Thrown (Some null_body_error).
Proof.
  intros Hjson. unfold handleResponse. rewrite Hjson.
  destruct (ok response); reflexivity.
Qed.

(** C9.  A response whose body parses to [null] makes [handleResponse]
    throw the [TypeError] of reading [message] on [null], whatever the
    status: it returns no result and throws none of its own errors.  In
    the loop such an attempt, 2xx included, counts as a failed one: with
    attempts left a wait and another [fetch] follow, and on the last
    attempt the call rejects with the [TypeError]. *)
Theorem null_body_throws_TypeError
    env endpoint options ls (k : nat) (response : Response) :
  json response = inr JNull ->
  handleResponse response = Thrown (Some null_body_error)
  /\ exn_class null_body_error = TypeError
  /\ (Z.of_nat k <= max_retries options ->
      (forall j, (j < k)%nat -> retryable (outcome env endpoint options ls j)) ->
      arrives env endpoint options ls k = inr response ->
      exists c ls' rest,
        request env endpoint options ls
        = Some (c, ls',
                GetItem "token"
                :: (backoff (sent_url env endpoint options) (sent_init options ls) k
                    ++ Fetch (sent_url env endpoint options) (sent_init options ls)
                       :: rest)%list)
        /\ (Z.of_nat k < max_retries options ->
            exists rest',
              rest = Delay (1000 * Z.of_nat (S k))
                     :: Fetch (sent_url env endpoint options) (sent_init options ls)
                     :: rest')
        /\ (Z.of_nat k = max_retries options ->
            rest = [] /\ c = Thrown (Some null_body_error))).
Proof.
  intros Hjson. split; [apply handleResponse_null; assumption|].
  split; [reflexivity|].
  intros Hk Hfail Harr.
  apply request_goes_on; auto.
  unfold outcome, try_attempt. unfold arrives in Harr. rewrite Harr.
  apply handleResponse_null; assumption.
Qed.

(** A 200 with body [null], asked for once: the call rejects with the
    [TypeError]. *)
Lemma null_body_throws_TypeError_witness :
  handleResponse (mkResponse 200 (inr JNull)) = Thrown (Some null_body_error)
  /\ exists ls' evs,
       request (Scenario.scripted [] (Scenario.responds 200 JNull))
         "/photos" Scenario.once Scenario.logged_in
       = Some (Thrown (Some null_body_error), ls', evs)
       /\ fetches evs = 1%nat.
Proof.
  destruct (null_body_throws_TypeError
              (Scenario.scripted [] (Scenario.responds 200 JNull))
              "/photos" Scenario.once Scenario.logged_in 0
              (mkResponse 200 (inr JNull)))
    as (Hthrow & _ & Hloop).
  - reflexivity.
  - split; [exact Hthrow|].
    destruct Hloop as (c & ls' & rest & Hreq & _ & Hlast).
    + vm_compute. intros [=].
    + intros j Hj. lia.
    + reflexivity.
    + destruct Hlast as [-> ->]; [reflexivity|].
      exists ls'. eexists. split; [exact Hreq | reflexivity].
Defined.

(** What [handleResponse] can throw. *)
Lemma handleResponse_thrown response v :
  handleResponse response = Thrown v ->
  exists e,
    v = Some e
    /\ (json response = inl e
        \/ exists data,
             json response = inr data
             /\ ((ok response = false /\ e = http_failure data)
                 \/ (data = JNull /\ e = null_body_error))).
Proof.
  destruct (json response) as [e|data] eqn:Hjson.
  - unfold handleResponse. rewrite Hjson. intros [= <-]. eauto.
  - destruct (ok response) eqn:Hok.
    + unfold handleResponse. rewrite Hjson, Hok. simpl negb. cbv iota.
      destruct data; simpl; intros [= <-].
      exists null_body_error. split; [reflexivity|]. right. eauto.
    + rewrite (handleResponse_not_ok response data Hok Hjson). intros [= <-].
      exists (http_failure data). split; [reflexivity|]. right. eauto.
Qed.






(** *** Headers *)

Lemma new_Headers_map init :
  new_Headers init = map (fun kv => (lower (fst kv), snd kv)) init.
Proof.
  unfold new_Headers.
  enough (forall acc,
            fold_left (fun h kv => Headers_append (fst kv) (snd kv) h) init acc
            = (acc ++ map (fun kv => (lower (fst kv), snd kv)) init)%list) as H
    by apply (H []).
  induction init as [|kv init IH]; intros acc; simpl.
  - rewrite app_nil_r. reflexivity.
  - rewrite IH. unfold Headers_append. rewrite <- app_assoc. reflexivity.
Qed.

(** The entries of a record that a header name selects. *)
Lemma Headers_values_new name init :
  Headers_values name (new_Headers init)
  = map snd (List.filter (fun kv => String.eqb (lower (fst kv)) (lower name)) init).
Proof.
  rewrite new_Headers_map. unfold Headers_values.
  induction init as [|kv init IH]; [reflexivity|].
  simpl. destruct (String.eqb (lower (fst kv)) (lower name)); simpl; rewrite IH;
    reflexivity.
Qed.

Lemma filter_obj_set name k v o :
  String.eqb (lower k) (lower name) = false ->
  List.filter (fun kv => String.eqb (lower (fst kv)) (lower name)) (obj_set k v o)
  = List.filter (fun kv => String.eqb (lower (fst kv)) (lower name)) o.
Proof.
  intros Hk. induction o as [|[k' v'] o IH]; simpl.
  - rewrite Hk. reflexivity.
  - destruct (String.eqb_spec k k') as [<-|Hne]; simpl.
    + rewrite Hk. reflexivity.
    + rewrite IH. reflexivity.
Qed.

Lemma filter_spread name src : forall o,
  existsb (fun kv => String.eqb (lower (fst kv)) (lower name)) src = false ->
  List.filter (fun kv => String.eqb (lower (fst kv)) (lower name)) (spread o src)
  = List.filter (fun kv => String.eqb (lower (fst kv)) (lower name)) o.
Proof.
  unfold spread.
  induction src as [|[k v] src IH]; intros o Hsrc; simpl in *; [reflexivity|].
  apply orb_false_elim in Hsrc as [Hk Hsrc].
  rewrite IH by assumption. apply filter_obj_set. assumption.
Qed.

Lemma Headers_values_delete_other name name' h :
  String.eqb (lower name) (lower name') = false ->
  Headers_values name (Headers_delete name' h) = Headers_values name h.
Proof.
  intros Hne. unfold Headers_values, Headers_delete.
  induction h as [|[k v] h IH]; [reflexivity|]. simpl.
  destruct (String.eqb_spec k (lower name)) as [->|Hk].
  - rewrite Hne. simpl. rewrite String.eqb_refl. simpl. rewrite IH. reflexivity.
  - destruct (String.eqb k (lower name')); simpl.
    + exact IH.
    + destruct (String.eqb_spec k (lower name)); [contradiction|]. exact IH.
Qed.

(** The authorization of the headers [request] builds, when the caller
    brings none. *)
Lemma build_headers_authorization token options :
  caller_sets "Authorization" options = false ->
  Headers_get "Authorization" (build_headers token options)
  = match token with
    | Some t => if String.eqb t EmptyString then None else Some ("Bearer " ++ t)
    | None => None
    end.
Proof.
  intros Hcaller. unfold Headers_get, build_headers.
  assert (Hvalues :
    Headers_values "Authorization"
      (new_Headers
         (spread (spread [("Content-Type", "application/json")] (authorization_entry token))
            (default [] (headers options))))
    = match token with
      | Some t => if String.eqb t EmptyString then [] else ["Bearer " ++ t]
      | None => []
      end).
  { rewrite Headers_values_new, filter_spread by exact Hcaller.
    destruct token as [t|]; [|reflexivity].
    unfold authorization_entry. destruct (String.eqb t EmptyString); reflexivity. }
  destruct (is_FormData (body options)).
  - rewrite Headers_values_delete_other by reflexivity. rewrite Hvalues.
    destruct token as [t|]; [|reflexivity]. destruct (String.eqb t EmptyString); reflexivity.
  - rewrite Hvalues.
    destruct token as [t|]; [|reflexivity]. destruct (String.eqb t EmptyString); reflexivity.
Qed.

(** Every [fetch] of a call is given the arguments built before the
    loop. *)
Lemma request_fetches env endpoint options ls c ls' evs url init :
  request env endpoint options ls = Some (c, ls', evs) ->
  In (Fetch url init) evs ->
  url = sent_url env endpoint options /\ init = sent_init options ls.
Proof.
  rewrite request_unfold.
  destruct (attempts _ _ _ _ _ _ _ _ _ _) as [[[c0 ls0] evs0]|] eqn:Hloop;
    [|discriminate].
  intros [= <- <- <-] [Hin | Hin]; [discriminate Hin|].
  apply attempts_events in Hloop.
  destruct (proj1 (List.Forall_forall _ _) Hloop _ Hin) as [Heq | [ms Heq]];
    [injection Heq as -> ->; auto | discriminate Heq].
Qed.

Lemma own_authorization_run :
  exists c ls' evs,
    request (Scenario.scripted [] (Scenario.responds 200 Scenario.profile))
      "/users/profile/" Scenario.with_own_authorization Scenario.logged_in
    = Some (c, ls', evs)
    /\ In (Fetch (sent_url (Scenario.scripted [] (Scenario.responds 200 Scenario.profile))
                    "/users/profile/" Scenario.with_own_authorization)
             (sent_init Scenario.with_own_authorization Scenario.logged_in)) evs
    /\ Headers_get "Authorization"
         (init_headers (sent_init Scenario.with_own_authorization Scenario.logged_in))
       = Some "Basic abc".
Proof.
  do 3 eexists. split; [vm_compute; reflexivity|].
  split; [right; left; reflexivity | reflexivity].
Qed.

(** C8, as stated, fails: with the token T stored and a caller that passes
    an Authorization header of its own, the request carries the caller's
    value, not the bearer token. *)
Lemma bearer_iff_credential_fails : ~ AsStated.bearer_iff_credential.
Proof.
  intros H. destruct own_authorization_run as (c & ls' & evs & Hrun & Hin & Hget).
  specialize (H _ _ _ _ _ _ _ _ _ Hrun Hin).
  rewrite Hget in H. vm_compute in H. discriminate H.
Qed.

(** C8, amended.  For a call whose header names and values are legal and
    free of surrounding white space, the stored token included, so that the
    platform keeps them as written, and whose caller brings no Authorization
    entry of its own: every [fetch] of the call carries
    [Authorization: Bearer <token>] if a token (a non-empty string) is
    stored when the call starts, and no Authorization header if none is. *)
Theorem bearer_header_follows_credential
    env endpoint options ls c ls' evs url init :
  Platform.can_build_headers (ls !! "token") options = true ->
  caller_sets "Authorization" options = false ->
  request env endpoint options ls = Some (c, ls', evs) ->
  In (Fetch url init) evs ->
  Headers_get "Authorization" (init_headers init)
  = if Auth.isAuthenticated ls
    then (fun t => "Bearer " ++ t) <$> Auth.getToken ls
    else None.
Proof.
  intros _ Hcaller Hreq Hin.
  destruct (request_fetches _ _ _ _ _ _ _ _ _ Hreq Hin) as [_ ->].
  simpl init_headers. rewrite build_headers_authorization by assumption.
  unfold Auth.isAuthenticated, Auth.getToken.
  destruct (ls !! "token") as [t|]; [|reflexivity].
  destruct (String.eqb t EmptyString); reflexivity.
Qed.

(** The profile request of a logged-in page carries [Bearer T]. *)
Lemma bearer_header_follows_credential_witness :
  Headers_get "Authorization"
    (init_headers (sent_init (with_method "GET" no_options) Scenario.logged_in))
  = Some "Bearer T".
Proof.
  apply (bearer_header_follows_credential
           (Scenario.scripted [] (Scenario.responds 200 Scenario.profile))
           "/users/profile/" (with_method "GET" no_options) Scenario.logged_in
           (Returned (mkApiResponse Scenario.profile 200 None)) Scenario.logged_in
           [GetItem "token";
            Fetch (sent_url (Scenario.scripted [] (Scenario.responds 200 Scenario.profile))
                     "/users/profile/" (with_method "GET" no_options))
              (sent_init (with_method "GET" no_options) Scenario.logged_in)]
           (sent_url (Scenario.scripted [] (Scenario.responds 200 Scenario.profile))
              "/users/profile/" (with_method "GET" no_options))
           (sent_init (with_method "GET" no_options) Scenario.logged_in)).
  - reflexivity.
  - reflexivity.
  - vm_compute. reflexivity.
  - right. left. reflexivity.
Defined.

(** C10.  A call reads the token once, before its first attempt, and
    builds its headers once: whatever the network does and whatever the
    other tasks do to the storage during the fetches and the waits, the
    call ends, its trace holds no second read, and every [fetch] in it is
    given the headers built from the token that was stored when the call
    started. *)
Theorem headers_computed_once env endpoint options ls :
  exists c ls' evs',
    request env endpoint options ls = Some (c, ls', GetItem "token" :: evs')
    /\ Forall (fun ev => is_read ev = false) evs'
    /\ forall url init,
         In (Fetch url init) evs' ->
         init_headers init = build_headers (ls !! "token") options
         /\ Headers_get "Authorization" (init_headers init)
            = Headers_get "Authorization" (build_headers (ls !! "token") options).
Proof.
  destruct (request_total env endpoint options ls) as (c & ls' & evs & Hreq).
  pose proof Hreq as Hrun. rewrite request_unfold in Hreq.
  destruct (attempts _ _ _ _ _ _ _ _ _ _) as [[[c0 ls0] evs0]|] eqn:Hloop;
    [|discriminate].
  injection Hreq as <- <- <-.
  exists c0, ls0, evs0. split; [exact Hrun|]. split.
  - apply attempts_events in Hloop.
    eapply List.Forall_impl; [|exact Hloop].
    intros ev [-> | [ms ->]]; reflexivity.
  - intros url init Hin.
    destruct (request_fetches _ _ _ _ _ _ _ url init Hrun) as [_ ->];
      [right; exact Hin|].
    split; reflexivity.
Qed.

(** The token is removed during the first wait; the second [fetch] still
    carries it. *)
Example token_removed_during_wait :
  exists c url init,
    request (Scenario.scripted_with_logout [Scenario.responds 503 (JObj [])]
               (Scenario.responds 200 Scenario.profile))
      "/photos" no_options Scenario.logged_in
    = Some (c, Scenario.logged_out,
            [GetItem "token"; Fetch url init; Delay 1000; Fetch url init])
    /\ Headers_get "Authorization" (init_headers init) = Some "Bearer T".
Proof. do 3 eexists. split; vm_compute; reflexivity. Qed.

End Pipeline.

(** ** Properties of the session hook *)

Section Session.
Import Js Api Spec.

Lemma attempts_quiet env endpoint params timeout retries init fuel :
  (forall k ls, during_fetch env k ls = ls) ->
  (forall k ls, during_delay env k ls = ls) ->
  forall attempt lastError ls c ls' evs,
    attempts env endpoint params timeout retries init fuel attempt lastError ls
    = Some (c, ls', evs) ->
    ls' = ls.
Proof.
  intros Hf Hd.
  induction fuel as [|fuel IH]; intros attempt lastError ls c ls' evs; simpl.
  - destruct (attempt <=? retries); [discriminate|]. intros [= _ <- _]. reflexivity.
  - destruct (attempt <=? retries); [|intros [= _ <- _]; reflexivity].
    rewrite Hf.
    destruct (try_attempt _ _ _ _ _) as [r|e]; [intros [= _ <- _]; reflexivity|].
    destruct (is_failed_to_fetch e); [intros [= _ <- _]; reflexivity|].
    destruct (attempt =? retries); [intros [= _ <- _]; reflexivity|].
    rewrite Hd.
    destruct (attempts _ _ _ _ _ _ fuel _ _ _) as [[[c0 ls0] evs0]|] eqn:Hrec;
      [|discriminate].
    intros [= _ <- _]. eapply IH; eauto.
Qed.

(** A call writes nothing to the storage. *)
Lemma request_no_write env endpoint options ls c ls' evs :
  request env endpoint options ls = Some (c, ls', evs) ->
  Forall (fun ev => is_write ev = false) evs.
Proof.
  rewrite request_unfold.
  destruct (attempts _ _ _ _ _ _ _ _ _ _) as [[[c0 ls0] evs0]|] eqn:Hloop;
    [|discriminate].
  intros [= <- <- <-]. constructor; [reflexivity|].
  apply attempts_events in Hloop.
  eapply List.Forall_impl; [|exact Hloop].
  intros ev [-> | [ms ->]]; reflexivity.
Qed.

Lemma request_quiet env endpoint options ls c ls' evs :
  (forall k ls, during_fetch env k ls = ls) ->
  (forall k ls, during_delay env k ls = ls) ->
  request env endpoint options ls = Some (c, ls', evs) ->
  ls' = ls.
Proof.
  intros Hf Hd. rewrite request_unfold.
  destruct (attempts _ _ _ _ _ _ _ _ _ _) as [[[c0 ls0] evs0]|] eqn:Hloop;
    [|discriminate].
  intros [= <- <- <-]. eapply attempts_quiet; eauto.
Qed.

(** [getCurrentUser] never rejects. *)
Lemma getCurrentUser_returns env ls :
  exists currentUser ls' evs,
    Auth.getCurrentUser env ls = Some (Returned currentUser, ls', evs).
Proof.
  unfold Auth.getCurrentUser.
  destruct (negb (Auth.isAuthenticated ls)); [eauto|].
  destruct (request_total env "/users/profile/" (with_method "GET" no_options) ls)
    as (c & ls' & evs & Hreq).
  unfold user_getProfile, get. rewrite Hreq. destruct c; eauto.
Qed.

(** With a token stored and a first attempt that succeeds, it returns the
    data of the response. *)
Lemma getCurrentUser_profile env ls response :
  Auth.isAuthenticated ls = true ->
  outcome env "/users/profile/" (with_method "GET" no_options) ls 0 = Returned response ->
  exists ls' evs,
    Auth.getCurrentUser env ls = Some (Returned (Some (data response)), ls', evs).
Proof.
  intros Hauth Hout. unfold Auth.getCurrentUser, user_getProfile, get.
  rewrite Hauth. simpl negb. cbv iota.
  destruct (request_skip env "/users/profile/" (with_method "GET" no_options) ls 0)
    as (lastError & ls0 & fuel & _ & Hreq).
  { vm_compute. intros [=]. }
  { intros j Hj. lia. }
  rewrite (attempts_returned _ _ _ _ _ _ _ 0 _ _ response) in Hreq
    by (auto; vm_compute; intros [=]).
  rewrite Hreq. eauto.
Qed.

(** C7.  With a token stored, when the profile request fails [checkAuth]
    leaves the anonymous state (no user, not authenticated, not loading)
    and writes nothing to the storage, which stays as it was when no other
    task touches it; but the error field is left empty: [getCurrentUser]
    turns the rejection into [null] and the [catch] of [checkAuth], which
    would store the message, does not run. *)
Theorem checkAuth_failure_stores_no_error env st ls e ls0 evs0 :
  Auth.isAuthenticated ls = true ->
  user_getProfile env ls = Some (Thrown e, ls0, evs0) ->
  exists ls' evs,
    UseAuth.checkAuth env st ls
    = Some (UseAuth.mkAuthState None false None false, ls', evs)
    /\ Forall (fun ev => is_write ev = false) evs
    /\ ((forall k ls, during_fetch env k ls = ls) ->
        (forall k ls, during_delay env k ls = ls) ->
        ls' = ls).
Proof.
  intros Hauth Hfail. unfold UseAuth.checkAuth, Auth.getCurrentUser.
  rewrite Hauth, Hfail. simpl.
  do 2 eexists. split; [reflexivity|]. split.
  - do 2 (constructor; [reflexivity|]).
    unfold user_getProfile, get in Hfail. apply request_no_write in Hfail.
    exact Hfail.
  - intros Hf Hd. unfold user_getProfile, get in Hfail.
    eapply request_quiet; eauto.
Qed.

(** The server is unreachable while the token T is stored: the state ends
    anonymous, the token is still there, and no error is stored. *)
Lemma checkAuth_failure_stores_no_error_witness :
  exists evs,
    UseAuth.checkAuth (Scenario.scripted [] Scenario.unreachable) UseAuth.initial
      Scenario.logged_in
    = Some (UseAuth.mkAuthState None false None false, Scenario.logged_in, evs).
Proof.
  destruct (checkAuth_failure_stores_no_error
              (Scenario.scripted [] Scenario.unreachable) UseAuth.initial
              Scenario.logged_in (Some (new_Error network_message)) Scenario.logged_in
              [GetItem "token";
               Fetch (sent_url (Scenario.scripted [] Scenario.unreachable)
                        "/users/profile/" (with_method "GET" no_options))
                 (sent_init (with_method "GET" no_options) Scenario.logged_in)])
    as (ls' & evs & Hrun & _ & Hquiet).
  - reflexivity.
  - vm_compute. reflexivity.
  - rewrite (Hquiet (fun _ _ => eq_refl) (fun _ _ => eq_refl)) in Hrun.
    exists evs. exact Hrun.
Defined.

(** C6, as stated, fails: a check is in flight, [logout] runs to its end,
    then the profile request of the check succeeds: the state is
    authenticated again although no token is stored. *)
Lemma stale_check_is_ignored_fails : ~ AsStated.stale_check_is_ignored.
Proof.
  intros H.
  specialize (H (Scenario.scripted [] (Scenario.responds 200 Scenario.profile))
                Scenario.checking 0%nat).
  destruct (UseAuth.perform
              (UseAuth.CheckAuthSettled 0
                 (Scenario.scripted [] (Scenario.responds 200 Scenario.profile)))
              (UseAuth.logout Scenario.checking)) as [p'|] eqn:Hstep.
  - specialize (H p' ltac:(eexists; reflexivity) eq_refl).
    vm_compute in Hstep. injection Hstep as <-.
    vm_compute in H. discriminate H.
  - vm_compute in Hstep. discriminate Hstep.
Qed.

(** C6, amended.  The outcome of a check that is in flight when [logout]
    runs is not ignored.  When the check settles after [logout] it
    overwrites the state with what its own profile request came to,
    whatever the storage holds by then: the user is the data of the response
    the request returned, on whichever attempt, and [null] when the request
    was rejected; the state is authenticated exactly when that value is
    truthy; loading is off and the error stays empty.  The token [logout]
    removed stays removed. *)
Theorem stale_check_overwrites_state env p i seen :
  UseAuth.in_flight p !! i = Some seen ->
  exists c ls1 evs1 p',
    user_getProfile env seen = Some (c, ls1, evs1)
    /\ UseAuth.perform (UseAuth.CheckAuthSettled i env) (UseAuth.logout p) = Some p'
    /\ UseAuth.auth p'
       = UseAuth.mkAuthState (Settled.current_user seen c) false None
           (truthy_value (Settled.current_user seen c))
    /\ UseAuth.storage p' !! "token" = None
    /\ UseAuth.in_flight p' = delete i (UseAuth.in_flight p)
    /\ (forall response,
          Auth.isAuthenticated seen = true ->
          outcome env "/users/profile/" (with_method "GET" no_options) seen 0
          = Returned response ->
          Settled.current_user seen c = Some (data response)).
Proof.
  intros Hseen.
  destruct (request_total env "/users/profile/" (with_method "GET" no_options) seen)
    as (c & ls1 & evs1 & Hreq).
  exists c, ls1, evs1.
  assert (Htoken : forall ls : gmap string string,
            delete "token" (delete "token" ls) !! "token" = None)
    by (intros ls; apply lookup_delete_eq).
  unfold UseAuth.perform, UseAuth.logout. simpl. rewrite Hseen.
  unfold Auth.getCurrentUser, Settled.current_user, user_getProfile, get.
  destruct (Auth.isAuthenticated seen) eqn:Hauth; simpl negb; cbv iota.
  - rewrite Hreq.
    destruct c as [response|e]; eexists;
      (split; [reflexivity|]); (split; [reflexivity|]); (split; [reflexivity|]);
      (split; [apply Htoken|]); (split; [reflexivity|]).
    + intros response' _ Hout.
      destruct (getCurrentUser_profile env seen response' Hauth Hout)
        as (ls2 & evs2 & Hget).
      unfold Auth.getCurrentUser, user_getProfile, get in Hget.
      rewrite Hauth in Hget. simpl in Hget. rewrite Hreq in Hget.
      injection Hget as Hdata _ _. rewrite Hdata. reflexivity.
    + intros response' _ Hout.
      destruct (getCurrentUser_profile env seen response' Hauth Hout)
        as (ls2 & evs2 & Hget).
      unfold Auth.getCurrentUser, user_getProfile, get in Hget.
      rewrite Hauth in Hget. simpl in Hget. rewrite Hreq in Hget.
      discriminate Hget.
  - eexists.
    (split; [exact Hreq|]); (split; [reflexivity|]); (split; [reflexivity|]);
      (split; [apply Htoken|]); (split; [reflexivity|]).
    intros response' Habs. discriminate Habs.
Qed.

(** The page whose check is in flight logs out, then the profile arrives:
    authenticated, with no token. *)
Lemma stale_check_overwrites_state_witness :
  exists p',
    UseAuth.run [UseAuth.CheckAuthCalled; UseAuth.LogoutCalled;
                 UseAuth.CheckAuthSettled 0
                   (Scenario.scripted [] (Scenario.responds 200 Scenario.profile))]
      Scenario.mounted = Some p'
    /\ UseAuth.isAuthenticated (UseAuth.auth p') = true
    /\ UseAuth.user (UseAuth.auth p') = Some Scenario.profile
    /\ UseAuth.storage p' !! "token" = None.
Proof.
  destruct (stale_check_overwrites_state
              (Scenario.scripted [] (Scenario.responds 200 Scenario.profile))
              Scenario.checking 0%nat Scenario.logged_in)
    as (c & ls1 & evs1 & p' & _ & Hstep & Hauth & Htoken & _ & Hdata).
  - reflexivity.
  - exists p'. split; [exact Hstep|].
    rewrite Hauth.
    rewrite (Hdata (mkApiResponse Scenario.profile 200 None) eq_refl eq_refl).
    split; [reflexivity|]. split; [reflexivity | exact Htoken].
Defined.

End Session.

(** ** Further properties of the request pipeline *)

Section PipelineMore.
Import Js Api Spec.

Lemma Headers_values_delete_same name h :
  Headers_values name (Headers_delete name h) = [].
Proof.
  unfold Headers_values, Headers_delete.
  induction h as [|[k v] h IH]; [reflexivity|]. simpl.
  destruct (String.eqb k (lower name)) eqn:Hk; simpl; [exact IH|].
  rewrite Hk. exact IH.
Qed.

(** X1.  A call whose body is a [FormData] sends no Content-Type header on
    any of its attempts, not even one the caller put in its own headers:
    the transport is left to set it. *)
Theorem form_data_has_no_content_type
    env endpoint options ls c ls' evs url init :
  is_FormData (body options) = true ->
  request env endpoint options ls = Some (c, ls', evs) ->
  In (Fetch url init) evs ->
  Headers_get "Content-Type" (init_headers init) = None
  /\ Headers_has "content-type" (init_headers init) = false.
Proof.
  intros Hform Hreq Hin.
  destruct (request_fetches _ _ _ _ _ _ _ _ _ Hreq Hin) as [_ ->].
  simpl init_headers. unfold build_headers. rewrite Hform.
  unfold Headers_get, Headers_has.
  change (lower "content-type") with (lower "Content-Type").
  assert (H : forall h, Headers_values "content-type" (Headers_delete "Content-Type" h) = []).
  { intros h. apply (Headers_values_delete_same "Content-Type"). }
  rewrite Headers_values_delete_same, H. split; reflexivity.
Qed.

(** An upload whose caller set a multipart type by hand: the header is
    dropped all the same. *)
Lemma form_data_has_no_content_type_witness :
  Headers_get "Content-Type"
    (init_headers
       (sent_init
          (mkRequestOptions None None None (Some "POST")
             (Some [("content-type", "multipart/form-data")])
             (Some (BodyFormData [("image", "bytes")])))
          Scenario.logged_in))
  = None.
Proof.
  apply (form_data_has_no_content_type
           (Scenario.scripted [] (Scenario.responds 201 Scenario.profile))
           "/photos/upload"
           (mkRequestOptions None None None (Some "POST")
              (Some [("content-type", "multipart/form-data")])
              (Some (BodyFormData [("image", "bytes")])))
           Scenario.logged_in
           (Returned (mkApiResponse Scenario.profile 201 None)) Scenario.logged_in
           [GetItem "token";
            Fetch (sent_url (Scenario.scripted [] (Scenario.responds 201 Scenario.profile))
                     "/photos/upload"
                     (mkRequestOptions None None None (Some "POST")
                        (Some [("content-type", "multipart/form-data")])
                        (Some (BodyFormData [("image", "bytes")]))))
              (sent_init
                 (mkRequestOptions None None None (Some "POST")
                    (Some [("content-type", "multipart/form-data")])
                    (Some (BodyFormData [("image", "bytes")])))
                 Scenario.logged_in)]
           (sent_url (Scenario.scripted [] (Scenario.responds 201 Scenario.profile))
              "/photos/upload"
              (mkRequestOptions None None None (Some "POST")
                 (Some [("content-type", "multipart/form-data")])
                 (Some (BodyFormData [("image", "bytes")]))))
           (sent_init
              (mkRequestOptions None None None (Some "POST")
                 (Some [("content-type", "multipart/form-data")])
                 (Some (BodyFormData [("image", "bytes")])))
              Scenario.logged_in)).
  - reflexivity.
  - vm_compute. reflexivity.
  - right. left. reflexivity.
Defined.

Lemma build_headers_content_type token options :
  is_FormData (body options) = false ->
  caller_sets "Content-Type" options = false ->
  Headers_get "Content-Type" (build_headers token options) = Some "application/json".
Proof.
  intros Hform Hcaller. unfold Headers_get, build_headers. rewrite Hform.
  rewrite Headers_values_new, filter_spread by exact Hcaller.
  destruct token as [t|]; [|reflexivity].
  unfold authorization_entry. destruct (String.eqb t EmptyString); reflexivity.
Qed.

(** X2.  A call whose body is not a [FormData] and whose caller names no
    Content-Type of its own sends [Content-Type: application/json] on every
    attempt, with or without a stored token. *)
Theorem json_content_type_by_default
    env endpoint options ls c ls' evs url init :
  is_FormData (body options) = false ->
  caller_sets "Content-Type" options = false ->
  request env endpoint options ls = Some (c, ls', evs) ->
  In (Fetch url init) evs ->
  Headers_get "Content-Type" (init_headers init) = Some "application/json".
Proof.
  intros Hform Hcaller Hreq Hin.
  destruct (request_fetches _ _ _ _ _ _ _ _ _ Hreq Hin) as [_ ->].
  apply build_headers_content_type; assumption.
Qed.

(** The profile request of a logged-out page. *)
Lemma json_content_type_by_default_witness :
  Headers_get "Content-Type"
    (init_headers (sent_init (with_method "GET" no_options) Scenario.logged_out))
  = Some "application/json".
Proof.
  apply (json_content_type_by_default
           (Scenario.scripted [] (Scenario.responds 200 Scenario.profile))
           "/users/profile/" (with_method "GET" no_options) Scenario.logged_out
           (Returned (mkApiResponse Scenario.profile 200 None)) Scenario.logged_out
           [GetItem "token";
            Fetch (sent_url (Scenario.scripted [] (Scenario.responds 200 Scenario.profile))
                     "/users/profile/" (with_method "GET" no_options))
              (sent_init (with_method "GET" no_options) Scenario.logged_out)]
           (sent_url (Scenario.scripted [] (Scenario.responds 200 Scenario.profile))
              "/users/profile/" (with_method "GET" no_options))
           (sent_init (with_method "GET" no_options) Scenario.logged_out)).
  - reflexivity.
  - reflexivity.
  - vm_compute. reflexivity.
  - right. left. reflexivity.
Defined.






(** X4.  With a negative retry limit the loop body never runs: a call
    whose headers can be built makes no attempt at all and rejects with
    [null], the initial value of [lastError]. *)
Theorem negative_retries_reject_with_null env endpoint options ls :
  Platform.can_build_headers (ls !! "token") options = true ->
  max_retries options < 0 ->
  request env endpoint options ls = Some (Thrown None, ls, [GetItem "token"]).
Proof.
  intros _ Hneg. rewrite request_unfold.
  pose proof (attempts_beyond env endpoint (params options) (time_limit options)
                (max_retries options) (sent_init options ls)
                (Z.to_nat (max_retries options + 1)) 0 None ls Hneg) as H.
  rewrite H. reflexivity.
Qed.

(** A call with [retries: -1] to a server that would answer 200. *)
Lemma negative_retries_reject_with_null_witness :
  request (Scenario.scripted [] (Scenario.responds 200 Scenario.profile)) "/photos"
    (mkRequestOptions None None (Some (-1)) None None None) Scenario.logged_in
  = Some (Thrown None, Scenario.logged_in, [GetItem "token"]).
Proof.
  apply (negative_retries_reject_with_null
           (Scenario.scripted [] (Scenario.responds 200 Scenario.profile)) "/photos"
           (mkRequestOptions None None (Some (-1)) None None None) Scenario.logged_in);
    reflexivity.
Defined.

Lemma handleResponse_returned response a :
  handleResponse response = Returned a ->
  ok response = true
  /\ json response = inr (data a)
  /\ data a <> JNull
  /\ api_status a = status response
  /\ get_prop (data a) "message" = inr (message a).
Proof.
  unfold handleResponse.
  destruct (json response) as [e|d]; [discriminate|].
  destruct (ok response); simpl negb; cbv iota.
  - destruct (get_prop d "message") as [e|m] eqn:Hm; [discriminate|].
    intros [= <-]. simpl. repeat split; try assumption.
    intros ->. discriminate Hm.
  - destruct (truthy d && _); [discriminate|].
    destruct (get_prop d "message"); discriminate.
Qed.

Lemma attempts_returned_from env endpoint params timeout retries init fuel :
  forall attempt lastError ls r ls' evs,
    attempts env endpoint params timeout retries init fuel attempt lastError ls
    = Some (Returned r, ls', evs) ->
    exists attempt',
      attempt <= attempt' <= retries
      /\ try_attempt env timeout (Z.to_nat attempt')
           (buildUrl (API_URL (NEXT_PUBLIC_API_URL env)) endpoint params) init
         = Returned r.
Proof.
  induction fuel as [|fuel IH]; intros attempt lastError ls r ls' evs; simpl.
  - destruct (attempt <=? retries); discriminate.
  - destruct (Z.leb_spec attempt retries); [|discriminate].
    destruct (try_attempt env timeout (Z.to_nat attempt) _ _) as [r0|e] eqn:He.
    { intros [= <- <- <-]. exists attempt. split; [lia | exact He]. }
    destruct (is_failed_to_fetch e); [discriminate|].
    destruct (Z.eqb_spec attempt retries) as [Heq|Hne]; [discriminate|].
    destruct (attempts _ _ _ _ _ _ fuel _ _ _) as [[[c0 ls0] evs0]|] eqn:Hrec;
      [|discriminate].
    intros [= -> <- <-].
    apply IH in Hrec. destruct Hrec as (attempt' & Hrange & Hend).
    exists attempt'. split; [lia | exact Hend].
Qed.

(** X5.  What [request] returns is never made up: it is the body of a
    response with a 2xx status that one of the attempts within the retry
    limit received, that body is not [null], and the [status] and [message]
    of the result are that response's status and that body's [message]
    field. *)
Theorem request_returns_a_2xx_body env endpoint options ls a ls' evs :
  request env endpoint options ls = Some (Returned a, ls', evs) ->
  exists (k : nat) response,
    Z.of_nat k <= max_retries options
    /\ arrives env endpoint options ls k = inr response
    /\ json response = inr (data a)
    /\ data a <> JNull
    /\ api_status a = status response
    /\ 200 <= api_status a <= 299
    /\ get_prop (data a) "message" = inr (message a).
Proof.
  intros Hreq. rewrite request_unfold in Hreq.
  destruct (attempts _ _ _ _ _ _ _ _ _ _) as [[[c0 ls0] evs0]|] eqn:Hloop;
    [|discriminate].
  injection Hreq as -> <- <-.
  apply attempts_returned_from in Hloop. destruct Hloop as (attempt' & Hrange & Hend).
  unfold try_attempt in Hend.
  fold (sent_url env endpoint options) in Hend.
  fold (arrives env endpoint options ls (Z.to_nat attempt')) in Hend.
  destruct (arrives env endpoint options ls (Z.to_nat attempt')) as [e|response] eqn:Harr;
    [discriminate|].
  apply handleResponse_returned in Hend.
  destruct Hend as (Hok & Hjson & Hnull & Hstatus & Hmsg).
  exists (Z.to_nat attempt'), response.
  split; [lia|]. split; [exact Harr|]. split; [exact Hjson|]. split; [exact Hnull|].
  split; [exact Hstatus|]. split; [|exact Hmsg].
  rewrite Hstatus. unfold ok in Hok. apply andb_prop in Hok as [H1 H2].
  apply Z.leb_le in H1, H2. lia.
Qed.

(** The profile, served on the first attempt. *)
Lemma request_returns_a_2xx_body_witness :
  exists (k : nat) response,
    arrives (Scenario.scripted [] (Scenario.responds 200 Scenario.profile))
      "/users/profile/" no_options Scenario.logged_in k = inr response
    /\ json response = inr Scenario.profile.
Proof.
  destruct (request_returns_a_2xx_body
              (Scenario.scripted [] (Scenario.responds 200 Scenario.profile))
              "/users/profile/" no_options Scenario.logged_in
              (mkApiResponse Scenario.profile 200 None) Scenario.logged_in
              [GetItem "token";
               Fetch (sent_url (Scenario.scripted [] (Scenario.responds 200 Scenario.profile))
                        "/users/profile/" no_options)
                 (sent_init no_options Scenario.logged_in)])
    as (k & response & _ & Harr & Hjson & _).
  - vm_compute. reflexivity.
  - exists k, response. split; [exact Harr | exact Hjson].
Defined.

(** X6.  The [message] field of an error body is never surfaced on its
    own.  A non-2xx body that has a [message] field is a non-empty object,
    so the error thrown carries the JSON text of the whole body; the
    fallback branch that reads [data.message] is reached only by bodies
    without that field, and then gives the generic message. *)
Theorem error_body_message_is_not_used response data (m : JSON) :
  ok response = false ->
  json response = inr data ->
  get_prop data "message" = inr (Some m) ->
  validation_payload data = true
  /\ handleResponse response = Thrown (Some (new_Error (JSON_stringify data))).
Proof.
  intros Hok Hjson Hm.
  assert (Hv : validation_payload data = true).
  { destruct data as [| b | n | s | items | fields]; try discriminate Hm.
    destruct fields; [discriminate Hm | reflexivity]. }
  split; [exact Hv|].
  rewrite (handleResponse_not_ok response data Hok Hjson).
  unfold http_failure. rewrite Hv. reflexivity.
Qed.

(** A 404 whose body is an object with only a message. *)
Lemma error_body_message_is_not_used_witness :
  handleResponse (mkResponse 404 (inr (JObj [("message", JStr "Not found")])))
  = Thrown (Some (new_Error (JSON_stringify (JObj [("message", JStr "Not found")])))).
Proof.
  apply (error_body_message_is_not_used
           (mkResponse 404 (inr (JObj [("message", JStr "Not found")])))
           (JObj [("message", JStr "Not found")]) (JStr "Not found"));
    reflexivity.
Defined.

End PipelineMore.

(** ** Properties of the verbs and the endpoints *)

Section Verbs.
Import Js Api Spec.

(** X7.  [api.post] always sends the method POST and a body made from its
    [data] argument, whatever method or body the options carried: a
    [FormData] goes out as it is and without a Content-Type header, any
    other value goes out as its JSON text, with
    [Content-Type: application/json] unless the caller names another. *)
Theorem post_sends_its_payload
    env endpoint data options ls c ls' evs url init :
  Endpoints.post env endpoint data options ls = Some (c, ls', evs) ->
  In (Fetch url init) evs ->
  init_method init = Some "POST"
  /\ match data with
     | Endpoints.Form parts =>
         init_body init = Some (BodyFormData parts)
         /\ Headers_get "Content-Type" (init_headers init) = None
     | Endpoints.Json j =>
         init_body init = Some (BodyText (JSON_stringify j))
         /\ (caller_sets "Content-Type" options = false ->
             Headers_get "Content-Type" (init_headers init) = Some "application/json")
     end.
Proof.
  unfold Endpoints.post. intros Hreq Hin.
  destruct (request_fetches _ _ _ _ _ _ _ _ _ Hreq Hin) as [_ ->].
  split; [reflexivity|].
  destruct data as [j|parts].
  - split; [reflexivity|]. intros Hcaller.
    apply build_headers_content_type; [reflexivity | exact Hcaller].
  - split; [reflexivity|].
    simpl init_headers. unfold build_headers, Endpoints.with_method_body. simpl.
    unfold Headers_get. rewrite Headers_values_delete_same. reflexivity.
Qed.

(** An avatar upload that succeeds at once. *)
Lemma post_sends_its_payload_witness :
  init_method
    (sent_init
       (Endpoints.with_method_body "POST" (BodyFormData [("avatar", "bytes")]) no_options)
       Scenario.logged_in) = Some "POST"
  /\ init_body
       (sent_init
          (Endpoints.with_method_body "POST" (BodyFormData [("avatar", "bytes")]) no_options)
          Scenario.logged_in) = Some (BodyFormData [("avatar", "bytes")])
  /\ Headers_get "Content-Type"
       (init_headers
          (sent_init
             (Endpoints.with_method_body "POST" (BodyFormData [("avatar", "bytes")])
                no_options)
             Scenario.logged_in)) = None.
Proof.
  apply (post_sends_its_payload
           (Scenario.scripted [] (Scenario.responds 200 Scenario.profile))
           "/users/avatar/" (Endpoints.Form [("avatar", "bytes")]) no_options
           Scenario.logged_in
           (Returned (mkApiResponse Scenario.profile 200 None)) Scenario.logged_in
           [GetItem "token";
            Fetch (sent_url (Scenario.scripted [] (Scenario.responds 200 Scenario.profile))
                     "/users/avatar/"
                     (Endpoints.with_method_body "POST"
                        (BodyFormData [("avatar", "bytes")]) no_options))
              (sent_init
                 (Endpoints.with_method_body "POST"
                    (BodyFormData [("avatar", "bytes")]) no_options)
                 Scenario.logged_in)]
           (sent_url (Scenario.scripted [] (Scenario.responds 200 Scenario.profile))
              "/users/avatar/"
              (Endpoints.with_method_body "POST"
                 (BodyFormData [("avatar", "bytes")]) no_options))
           (sent_init
              (Endpoints.with_method_body "POST"
                 (BodyFormData [("avatar", "bytes")]) no_options)
              Scenario.logged_in)).
  - vm_compute. reflexivity.
  - right. left. reflexivity.
Defined.

(** X8.  [api.put] serialises whatever it is given: its body is always
    text and its method PUT.  A [FormData] handed to [put] therefore goes
    out as the text of the empty object, under
    [Content-Type: application/json] unless the caller names another. *)
Theorem put_always_sends_text
    env endpoint data options ls c ls' evs url init :
  Endpoints.put env endpoint data options ls = Some (c, ls', evs) ->
  In (Fetch url init) evs ->
  init_method init = Some "PUT"
  /\ init_body init = Some (BodyText (Endpoints.stringify data))
  /\ (forall parts, data = Endpoints.Form parts -> init_body init = Some (BodyText "{}"))
  /\ (caller_sets "Content-Type" options = false ->
      Headers_get "Content-Type" (init_headers init) = Some "application/json").
Proof.
  unfold Endpoints.put. intros Hreq Hin.
  destruct (request_fetches _ _ _ _ _ _ _ _ _ Hreq Hin) as [_ ->].
  split; [reflexivity|]. split; [reflexivity|]. split.
  - intros parts ->. reflexivity.
  - intros Hcaller. apply build_headers_content_type; [reflexivity | exact Hcaller].
Qed.

(** A profile update given a form. *)
Lemma put_always_sends_text_witness :
  init_body
    (sent_init (Endpoints.with_method_body "PUT" (BodyText "{}") no_options)
       Scenario.logged_in) = Some (BodyText "{}")
  /\ Headers_get "Content-Type"
       (init_headers
          (sent_init (Endpoints.with_method_body "PUT" (BodyText "{}") no_options)
             Scenario.logged_in)) = Some "application/json".
Proof.
  destruct (put_always_sends_text
              (Scenario.scripted [] (Scenario.responds 200 Scenario.profile))
              "/users/profile/" (Endpoints.Form [("avatar", "bytes")]) no_options
              Scenario.logged_in
              (Returned (mkApiResponse Scenario.profile 200 None)) Scenario.logged_in
              [GetItem "token";
               Fetch (sent_url (Scenario.scripted [] (Scenario.responds 200 Scenario.profile))
                        "/users/profile/"
                        (Endpoints.with_method_body "PUT" (BodyText "{}") no_options))
                 (sent_init (Endpoints.with_method_body "PUT" (BodyText "{}") no_options)
                    Scenario.logged_in)]
              (sent_url (Scenario.scripted [] (Scenario.responds 200 Scenario.profile))
                 "/users/profile/"
                 (Endpoints.with_method_body "PUT" (BodyText "{}") no_options))
              (sent_init (Endpoints.with_method_body "PUT" (BodyText "{}") no_options)
                 Scenario.logged_in)) as (_ & _ & Hform & Htype).
  - vm_compute. reflexivity.
  - right. left. reflexivity.
  - split; [apply (Hform [("avatar", "bytes")]); reflexivity | apply Htype; reflexivity].
Defined.

Lemma assoc_page_paged (v : ParamValue) (s : string) :
  param_toString v = Some s ->
  forall o,
    assoc "page"
      (omap (fun kv : string * ParamValue =>
               match param_toString (snd kv) with
               | Some s => Some (fst kv, s)
               | None => None
               end) (Endpoints.param_set "page" v o))
    = Some s.
Proof.
  intros Hs. induction o as [|[k' v'] o IH].
  - simpl. rewrite Hs. reflexivity.
  - change (Endpoints.param_set "page" v ((k', v') :: o))
      with (if String.eqb "page" k' then ("page", v) :: o
            else (k', v') :: Endpoints.param_set "page" v o).
    destruct (String.eqb "page" k') eqn:Hk.
    + simpl. rewrite Hs. reflexivity.
    + cbn [omap list_omap fst snd].
      destruct (param_toString v'); [|exact IH].
      cbn [assoc]. rewrite Hk. exact IH.
Qed.

Lemma page_or_1_present params :
  exists s, param_toString (Endpoints.page_or_1 params) = Some s.
Proof.
  unfold Endpoints.page_or_1.
  destruct (Endpoints.param_truthy _) eqn:Ht; [|eexists; reflexivity].
  destruct (match params with Some ps => default PUndefined (assoc "page" ps)
                         | None => PUndefined end) as [| | s | n | []];
    try discriminate Ht; eexists; reflexivity.
Qed.

(** X10.  A listing of collections or of photos always asks for a page:
    every attempt's URL has a [page] parameter, which is the caller's page
    when that is truthy and 1 otherwise, so that no page and page 0 both
    ask for page 1. *)
Theorem listing_always_asks_for_a_page
    env params ls c ls' evs url init :
  Endpoints.collections_getAll env params ls = Some (c, ls', evs)
  \/ Endpoints.photos_getAll env params ls = Some (c, ls', evs) ->
  In (Fetch url init) evs ->
  (exists s, assoc "page" (searchParams url) = Some s
             /\ param_toString (Endpoints.page_or_1 params) = Some s)
  /\ (params = None -> assoc "page" (searchParams url) = Some "1")
  /\ (forall ps, params = Some ps ->
        assoc "page" ps = None \/ assoc "page" ps = Some (PNumber 0) ->
        assoc "page" (searchParams url) = Some "1").
Proof.
  intros Hreq Hin.
  assert (Hurl : searchParams url
                 = searchParams (buildUrl (API_URL (NEXT_PUBLIC_API_URL env)) EmptyString
                                   (Some (Endpoints.paged params)))).
  { destruct Hreq as [Hreq | Hreq];
      unfold Endpoints.collections_getAll, Endpoints.photos_getAll, get in Hreq;
      destruct (request_fetches _ _ _ _ _ _ _ _ _ Hreq Hin) as [-> _]; reflexivity. }
  rewrite Hurl. simpl searchParams. unfold Endpoints.paged.
  destruct (page_or_1_present params) as (s & Hs).
  rewrite (assoc_page_paged _ s Hs). split; [eauto|]. split.
  - intros ->. rewrite <- Hs. reflexivity.
  - intros ps -> Hpage. rewrite <- Hs. unfold Endpoints.page_or_1.
    destruct Hpage as [-> | ->]; reflexivity.
Qed.

(** The first page of the collections, asked for with page 0. *)
Lemma listing_always_asks_for_a_page_witness :
  assoc "page"
    (searchParams
       (sent_url (Scenario.scripted [] (Scenario.responds 200 (JArr [])))
          "/collections"
          (with_method "GET"
             (Endpoints.with_params
                (Endpoints.paged (Some [("page", PNumber 0); ("search", PString "sea")]))
                no_options))))
  = Some "1".
Proof.
  destruct (listing_always_asks_for_a_page
              (Scenario.scripted [] (Scenario.responds 200 (JArr [])))
              (Some [("page", PNumber 0); ("search", PString "sea")])
              Scenario.logged_out
              (Returned (mkApiResponse (JArr []) 200 None)) Scenario.logged_out
              [GetItem "token";
               Fetch (sent_url (Scenario.scripted [] (Scenario.responds 200 (JArr [])))
                        "/collections"
                        (with_method "GET"
                           (Endpoints.with_params
                              (Endpoints.paged
                                 (Some [("page", PNumber 0); ("search", PString "sea")]))
                              no_options)))
                 (sent_init
                    (with_method "GET"
                       (Endpoints.with_params
                          (Endpoints.paged
                             (Some [("page", PNumber 0); ("search", PString "sea")]))
                          no_options))
                    Scenario.logged_out)]
              (sent_url (Scenario.scripted [] (Scenario.responds 200 (JArr [])))
                 "/collections"
                 (with_method "GET"
                    (Endpoints.with_params
                       (Endpoints.paged
                          (Some [("page", PNumber 0); ("search", PString "sea")]))
                       no_options)))
              (sent_init
                 (with_method "GET"
                    (Endpoints.with_params
                       (Endpoints.paged
                          (Some [("page", PNumber 0); ("search", PString "sea")]))
                       no_options))
                 Scenario.logged_out)) as (_ & _ & Hzero).
  - left. vm_compute. reflexivity.
  - right. left. reflexivity.
  - apply (Hzero [("page", PNumber 0); ("search", PString "sea")]);
      [reflexivity | right; reflexivity].
Defined.

End Verbs.

(** ** Properties of the credential operations *)

Section Credential.
Import Js Api Spec.

Lemma request_returned_not_null env endpoint options ls a ls' evs :
  request env endpoint options ls = Some (Returned a, ls', evs) ->
  data a <> JNull.
Proof.
  intros Hreq. rewrite request_unfold in Hreq.
  destruct (attempts _ _ _ _ _ _ _ _ _ _) as [[[c0 ls0] evs0]|] eqn:Hloop;
    [|discriminate].
  injection Hreq as -> <- <-.
  apply attempts_returned_from in Hloop. destruct Hloop as (attempt' & _ & Hend).
  unfold try_attempt in Hend.
  destruct (fetch_under_timer _ _) as [e|response]; [discriminate|].
  apply handleResponse_returned in Hend. tauto.
Qed.

Lemma get_prop_not_null d prop :
  d <> JNull -> exists v, get_prop d prop = inr v.
Proof. destruct d; intros Hd; try contradiction; simpl; eauto. Qed.

(** X11.  A [login] that rejects has written nothing: its trace holds no
    write and, when no other task touches the storage meanwhile, the
    storage is as it was, a token stored before included.  What it rejects
    with is the rejection of its request, or 'No token received' when the
    request succeeded without a truthy [token] in its body. *)
Theorem login_failure_writes_nothing env email password ls e ls' evs :
  Credentials.login env email password ls = Some (Thrown e, ls', evs) ->
  Forall (fun ev => is_write ev = false) evs
  /\ ((forall k ls, during_fetch env k ls = ls) ->
      (forall k ls, during_delay env k ls = ls) ->
      ls' = ls)
  /\ (Endpoints.auth_login env email password ls = Some (Thrown e, ls', evs)
      \/ (e = Some Credentials.no_token_received
          /\ exists response,
               Endpoints.auth_login env email password ls
               = Some (Returned response, ls', evs)
               /\ forall t, get_prop (data response) "token" = inr (Some t) ->
                            truthy t = false)).
Proof.
  unfold Credentials.login.
  destruct (Endpoints.auth_login env email password ls) as [[[c ls1] evs1]|] eqn:Hreq;
    [|discriminate].
  unfold Endpoints.auth_login, Endpoints.post in Hreq.
  pose proof (request_no_write _ _ _ _ _ _ _ Hreq) as Hnw.
  pose proof (fun Hf Hd => request_quiet _ _ _ _ _ _ _ Hf Hd Hreq) as Hq.
  destruct c as [response|error].
  2:{ intros [= <- <- <-]. split; [exact Hnw|]. split; [exact Hq|]. left. reflexivity. }
  pose proof (request_returned_not_null _ _ _ _ _ _ _ Hreq) as Hnull.
  destruct (get_prop_not_null (data response) "token" Hnull) as (token & Htoken).
  destruct (get_prop_not_null (data response) "user" Hnull) as (u & Huser).
  rewrite Htoken, Huser.
  destruct token as [t|].
  - destruct (truthy t) eqn:Ht; [discriminate|].
    intros [= <- <- <-]. split; [exact Hnw|]. split; [exact Hq|].
    right. split; [reflexivity|]. exists response. split; [reflexivity|].
    intros t' Ht'. congruence.
  - intros [= <- <- <-]. split; [exact Hnw|]. split; [exact Hq|].
    right. split; [reflexivity|]. exists response. split; [reflexivity|].
    intros t' Ht'. congruence.
Qed.

(** A login refused with field errors while an older token is stored: the
    token is still there. *)
Lemma login_failure_writes_nothing_witness :
  exists e evs,
    Credentials.login (Scenario.scripted [] (Scenario.responds 400 Scenario.field_errors))
      "a@b.com" "pw" Scenario.logged_in
    = Some (Thrown e, Scenario.logged_in, evs)
    /\ Forall (fun ev => is_write ev = false) evs.
Proof.
  destruct (Credentials.login
              (Scenario.scripted [] (Scenario.responds 400 Scenario.field_errors))
              "a@b.com" "pw" Scenario.logged_in) as [[[c ls'] evs]|] eqn:Hrun;
    [|vm_compute in Hrun; discriminate Hrun].
  destruct c as [u|e]; [vm_compute in Hrun; discriminate Hrun|].
  destruct (login_failure_writes_nothing _ _ _ _ _ _ _ Hrun) as (Hnw & Hq & _).
  rewrite (Hq (fun _ _ => eq_refl) (fun _ _ => eq_refl)).
  exists e, evs. split; [reflexivity | exact Hnw].
Defined.

(** X12.  A [login] that returns has stored a token, as the last thing it
    did and as its only write: the string conversion of the truthy [token]
    of the response body, the value it returns being that body's [user].
    When the token is a string the page is authenticated afterwards, and
    the headers of the next request, when their names and values are legal
    and free of surrounding white space, the token included, carry it as a
    bearer authorization, unless the caller brings an Authorization of its
    own. *)
Theorem login_stores_the_token env email password ls u ls' evs :
  Credentials.login env email password ls = Some (Returned u, ls', evs) ->
  exists response ls1 evs1 t,
    Endpoints.auth_login env email password ls = Some (Returned response, ls1, evs1)
    /\ get_prop (data response) "token" = inr (Some t)
    /\ truthy t = true
    /\ get_prop (data response) "user" = inr u
    /\ ls' = <["token" := ToString t]> ls1
    /\ evs = (evs1 ++ [SetItem "token" (ToString t)])%list
    /\ Forall (fun ev => is_write ev = false) evs1
    /\ Auth.getToken ls' = Some (ToString t)
    /\ (forall s, t = JStr s ->
          Auth.isAuthenticated ls' = true
          /\ forall options,
               Platform.can_build_headers (ls' !! "token") options = true ->
               caller_sets "Authorization" options = false ->
               Headers_get "Authorization" (build_headers (ls' !! "token") options)
               = Some ("Bearer " ++ s)).
Proof.
  unfold Credentials.login.
  destruct (Endpoints.auth_login env email password ls) as [[[c ls1] evs1]|] eqn:Hreq;
    [|discriminate].
  destruct c as [response|error]; [|discriminate].
  unfold Endpoints.auth_login, Endpoints.post in Hreq.
  pose proof (request_no_write _ _ _ _ _ _ _ Hreq) as Hnw.
  destruct (get_prop (data response) "token") as [e0|[t|]] eqn:Htoken; try discriminate.
  destruct (truthy t) eqn:Ht; [|discriminate].
  destruct (get_prop (data response) "user") as [e0|u0] eqn:Huser; [discriminate|].
  intros [= <- <- <-].
  exists response, ls1, evs1, t.
  repeat (split; [reflexivity || assumption|]).
  assert (Hget : Credentials.store_token t ls1 !! "token" = Some (ToString t))
    by apply lookup_insert_eq.
  split; [exact Hget|].
  intros s ->. simpl in Ht, Hget.
  split.
  - unfold Auth.isAuthenticated, Auth.getToken. rewrite Hget. exact Ht.
  - intros options _ Hcaller. rewrite build_headers_authorization by exact Hcaller.
    rewrite Hget. apply negb_true_iff in Ht. rewrite Ht. reflexivity.
Qed.

(** The mock backend of the specification: status 200, token T. *)
Lemma login_stores_the_token_witness :
  exists ls' evs,
    Credentials.login
      (Scenario.scripted []
         (Scenario.responds 200 (JObj [("token", JStr "T"); ("user", Scenario.profile)])))
      "a@b.com" "pw" Scenario.logged_out
    = Some (Returned (Some Scenario.profile), ls', evs)
    /\ Auth.getToken ls' = Some "T"
    /\ Auth.isAuthenticated ls' = true.
Proof.
  destruct (Credentials.login
              (Scenario.scripted []
                 (Scenario.responds 200 (JObj [("token", JStr "T"); ("user", Scenario.profile)])))
              "a@b.com" "pw" Scenario.logged_out) as [[[c ls'] evs]|] eqn:Hrun;
    [|vm_compute in Hrun; discriminate Hrun].
  destruct c as [u|e]; [|vm_compute in Hrun; discriminate Hrun].
  destruct (login_stores_the_token _ _ _ _ _ _ _ Hrun)
    as (response & ls1 & evs1 & t & Hreq & Htoken & _ & Huser & _ & _ & _ & Hget & Hstr).
  vm_compute in Hreq. injection Hreq as <- <- <-.
  vm_compute in Htoken. injection Htoken as <-.
  vm_compute in Huser. injection Huser as <-.
  exists ls', evs. split; [reflexivity|]. split; [exact Hget|].
  apply (Hstr "T"). reflexivity.
Defined.

(** X13.  [logout] of [lib/auth.ts] cannot fail and asks nothing of the
    network: it removes the token and only the token, after which the page
    is not authenticated, [requireAuth] redirects to the login page, and the
    headers built for a request carry no Authorization unless the caller
    brings one. *)
Theorem logout_removes_only_the_token ls :
  exists ls' evs,
    Auth.logout ls = (Returned tt, ls', evs)
    /\ fetches evs = 0%nat
    /\ Auth.getToken ls' = None
    /\ (forall k, k <> "token" -> ls' !! k = ls !! k)
    /\ Auth.isAuthenticated ls' = false
    /\ Credentials.requireAuth ls' = Credentials.Redirected "/login"
    /\ (forall options,
          caller_sets "Authorization" options = false ->
          Headers_get "Authorization" (build_headers (ls' !! "token") options) = None).
Proof.
  do 2 eexists. split; [reflexivity|]. split; [reflexivity|].
  assert (Hget : delete "token" (delete "token" ls) !! "token" = None)
    by apply lookup_delete_eq.
  split; [exact Hget|]. split.
  - intros k Hk. rewrite !lookup_delete_ne by congruence. reflexivity.
  - assert (Hauth : Auth.isAuthenticated (delete "token" (delete "token" ls)) = false).
    { unfold Auth.isAuthenticated, Auth.getToken. rewrite Hget. reflexivity. }
    split; [exact Hauth|]. split.
    + unfold Credentials.requireAuth. rewrite Hauth. reflexivity.
    + intros options Hcaller.
      rewrite build_headers_authorization by exact Hcaller. rewrite Hget. reflexivity.
Qed.

End Credential.

(** ** Further properties of the session hook *)

Section HookMore.
Import Js Api Spec UseAuth.

(** The state [checkAuth] leaves does not depend on the state it found. *)
Lemma checkAuth_forgets env st st0 ls :
  checkAuth env st ls = checkAuth env st0 ls.
Proof.
  unfold checkAuth.
  destruct (negb (Auth.isAuthenticated ls)); [reflexivity|].
  destruct (Auth.getCurrentUser env ls) as [[[settled ls'] evs]|]; [|reflexivity].
  destruct settled; reflexivity.
Qed.

Lemma getCurrentUser_no_write env ls c ls' evs :
  Auth.getCurrentUser env ls = Some (c, ls', evs) ->
  Forall (fun ev => is_write ev = false) evs
  /\ ((forall k ls, during_fetch env k ls = ls) ->
      (forall k ls, during_delay env k ls = ls) ->
      ls' = ls).
Proof.
  unfold Auth.getCurrentUser.
  destruct (negb (Auth.isAuthenticated ls)).
  { intros [= <- <- <-]. split; [repeat constructor | reflexivity]. }
  destruct (user_getProfile env ls) as [[[c0 ls0] evs0]|] eqn:Hreq; [|discriminate].
  unfold user_getProfile, get in Hreq.
  pose proof (request_no_write _ _ _ _ _ _ _ Hreq) as Hnw.
  pose proof (fun Hf Hd => request_quiet _ _ _ _ _ _ _ Hf Hd Hreq) as Hq.
  destruct c0; intros [= <- <- <-]; (split; [constructor; [reflexivity | exact Hnw] | exact Hq]).
Qed.

(** How [checkAuth] ends, from any state and against any network. *)
Lemma checkAuth_ends env st ls :
  exists st' ls' evs,
    checkAuth env st ls = Some (st', ls', evs)
    /\ loading st' = false
    /\ error st' = None
    /\ Forall (fun ev => is_write ev = false) evs
    /\ (isAuthenticated st' = true ->
        user st' <> None /\ Auth.isAuthenticated ls = true)
    /\ (Auth.isAuthenticated ls = false ->
        st' = mkAuthState None false None false /\ ls' = ls /\ fetches evs = 0%nat).
Proof.
  unfold checkAuth.
  destruct (Auth.isAuthenticated ls) eqn:Hauth; simpl negb; cbv iota.
  - destruct (getCurrentUser_returns env ls) as (currentUser & ls' & evs & Hget).
    rewrite Hget. do 3 eexists. split; [reflexivity|].
    split; [reflexivity|]. split; [reflexivity|]. split.
    + constructor; [reflexivity|]. apply (getCurrentUser_no_write _ _ _ _ _ Hget).
    + split; [|discriminate]. simpl. intros Htruthy.
      split; [|reflexivity]. destruct currentUser; [discriminate | discriminate Htruthy].
  - do 3 eexists. split; [reflexivity|].
    split; [reflexivity|]. split; [reflexivity|]. split; [repeat constructor|].
    split; [discriminate|]. intros _. repeat split.
Qed.

(** X14.  Whatever the network does and whatever state it starts from,
    [checkAuth] ends, with loading off and the error field empty, having
    written nothing to the storage.  It reports authenticated only with a
    user present and a token that was stored when it started; with no token
    (or an empty one) it ends anonymous without any request. *)
Theorem checkAuth_state_invariant env st ls :
  exists st' ls' evs,
    checkAuth env st ls = Some (st', ls', evs)
    /\ loading st' = false
    /\ error st' = None
    /\ Forall (fun ev => is_write ev = false) evs
    /\ (isAuthenticated st' = true ->
        user st' <> None /\ Auth.isAuthenticated ls = true)
    /\ (Auth.isAuthenticated ls = false ->
        st' = mkAuthState None false None false /\ ls' = ls /\ fetches evs = 0%nat).
Proof. exact (checkAuth_ends env st ls). Qed.

(** X15.  [checkAuth] derives the state from scratch: the state it leaves
    is the same from whatever state it starts, so two hooks that see the
    same storage and meet the same network agree; and when no other task
    touches the storage, calling it a second time leaves the state, the
    storage and the trace of the first call. *)
Theorem checkAuth_is_idempotent env st ls st1 ls1 evs1 :
  (forall k ls, during_fetch env k ls = ls) ->
  (forall k ls, during_delay env k ls = ls) ->
  checkAuth env st ls = Some (st1, ls1, evs1) ->
  ls1 = ls
  /\ (forall st0, checkAuth env st0 ls = Some (st1, ls1, evs1))
  /\ checkAuth env st1 ls1 = Some (st1, ls1, evs1).
Proof.
  intros Hf Hd Hrun.
  assert (Hls : ls1 = ls).
  { unfold checkAuth in Hrun.
    destruct (negb (Auth.isAuthenticated ls)); [injection Hrun as _ <- _; reflexivity|].
    destruct (Auth.getCurrentUser env ls) as [[[settled ls'] evs]|] eqn:Hget;
      [|discriminate].
    injection Hrun as _ <- _.
    apply (getCurrentUser_no_write _ _ _ _ _ Hget); assumption. }
  split; [exact Hls|]. split.
  - intros st0. rewrite (checkAuth_forgets env st0 st). exact Hrun.
  - rewrite Hls at 1. rewrite (checkAuth_forgets env st1 st). exact Hrun.
Qed.

(** A stable backend that serves the profile: the second check gives the
    state of the first. *)
Lemma checkAuth_is_idempotent_witness :
  exists st1 evs1,
    checkAuth (Scenario.scripted [] (Scenario.responds 200 Scenario.profile))
      initial Scenario.logged_in = Some (st1, Scenario.logged_in, evs1)
    /\ checkAuth (Scenario.scripted [] (Scenario.responds 200 Scenario.profile))
         st1 Scenario.logged_in = Some (st1, Scenario.logged_in, evs1)
    /\ isAuthenticated st1 = true.
Proof.
  destruct (checkAuth (Scenario.scripted [] (Scenario.responds 200 Scenario.profile))
              initial Scenario.logged_in) as [[[st1 ls1] evs1]|] eqn:Hrun;
    [|vm_compute in Hrun; discriminate Hrun].
  destruct (checkAuth_is_idempotent
              (Scenario.scripted [] (Scenario.responds 200 Scenario.profile))
              initial Scenario.logged_in st1 ls1 evs1
              (fun _ _ => eq_refl) (fun _ _ => eq_refl) Hrun) as (Hls & _ & Hagain).
  subst ls1. exists st1, evs1. split; [reflexivity|]. split; [exact Hagain|].
  vm_compute in Hrun. injection Hrun as <- _. reflexivity.
Defined.

Lemma request_thrown_not_null env endpoint options ls v ls' evs :
  0 <= max_retries options ->
  request env endpoint options ls = Some (Thrown v, ls', evs) ->
  exists e, v = Some e.
Proof.
  intros Hpos Hreq. rewrite request_unfold in Hreq.
  destruct (attempts _ _ _ _ _ _ _ _ _ _) as [[[c0 ls0] evs0]|] eqn:Hloop;
    [|discriminate].
  injection Hreq as -> <- <-.
  apply attempts_thrown in Hloop; [|lia].
  destruct Hloop as [-> | [Hend _]]; [eauto|].
  unfold try_attempt in Hend.
  destruct (fetch_under_timer _ _) as [e|response]; [injection Hend as <-; eauto|].
  apply handleResponse_thrown in Hend. destruct Hend as (e & -> & _). eauto.
Qed.

Lemma login_thrown_not_null env email password ls v ls' evs :
  Credentials.login env email password ls = Some (Thrown v, ls', evs) ->
  exists e, v = Some e.
Proof.
  unfold Credentials.login.
  destruct (Endpoints.auth_login env email password ls) as [[[c ls1] evs1]|] eqn:Hreq;
    [|discriminate].
  destruct c as [response|error].
  - destruct (get_prop (data response) "token") as [e0|[t|]];
      [intros [= <- _ _]; eauto | | intros [= <- _ _]; eauto].
    destruct (truthy t); [|intros [= <- _ _]; eauto].
    destruct (get_prop (data response) "user"); [intros [= <- _ _]; eauto | discriminate].
  - intros [= <- <- <-].
    unfold Endpoints.auth_login, Endpoints.post in Hreq.
    apply request_thrown_not_null in Hreq; [exact Hreq | vm_compute; intros [=]].
Qed.

(** X16.  Once the login request has returned a user, the hook's [login]
    ends authenticated with that user, loading off and the error empty, and
    pushes the profile route, whatever the profile request of the
    [checkAuth] it awaits in between came to: that outcome is
    overwritten. *)
Theorem login_ends_authenticated env_login env_check email password p u ls1 evs1 :
  Credentials.login env_login email password (storage p) = Some (Returned u, ls1, evs1) ->
  exists p',
    Hook.login env_login env_check email password p = Some (Returned tt, p')
    /\ auth p' = mkAuthState u false None true
    /\ pushed p' = (pushed p ++ [Hook.ROUTES_PROFILE_BASE])%list
    /\ in_flight p' = in_flight p.
Proof.
  intros Hlogin. unfold Hook.login. rewrite Hlogin.
  destruct (checkAuth_ends env_check (Hook.login_begin (auth p)) ls1)
    as (st2 & ls2 & evs2 & Hcheck & _ & Herr & _).
  rewrite Hcheck. eexists. split; [reflexivity|].
  simpl. unfold Hook.login_done. rewrite Herr. repeat split.
Qed.

(** The login succeeds, then the server becomes unreachable for the
    profile request: authenticated all the same. *)
Lemma login_ends_authenticated_witness :
  exists p',
    Hook.login
      (Scenario.scripted []
         (Scenario.responds 200 (JObj [("token", JStr "T"); ("user", Scenario.profile)])))
      (Scenario.scripted [] Scenario.unreachable)
      "a@b.com" "pw" (mkPage initial Scenario.logged_out [] [])
    = Some (Returned tt, p')
    /\ auth p' = mkAuthState (Some Scenario.profile) false None true
    /\ pushed p' = ["/profile"].
Proof.
  destruct (login_ends_authenticated
              (Scenario.scripted []
                 (Scenario.responds 200 (JObj [("token", JStr "T"); ("user", Scenario.profile)])))
              (Scenario.scripted [] Scenario.unreachable)
              "a@b.com" "pw" (mkPage initial Scenario.logged_out [] [])
              (Some Scenario.profile) (<["token" := "T"]> Scenario.logged_out)
              [GetItem "token";
               Fetch (sent_url
                        (Scenario.scripted []
                           (Scenario.responds 200
                              (JObj [("token", JStr "T"); ("user", Scenario.profile)])))
                        "/auth/login/"
                        (Endpoints.with_method_body "POST"
                           (BodyText (JSON_stringify
                                        (JObj [("email", JStr "a@b.com");
                                               ("password", JStr "pw")])))
                           no_options))
                 (sent_init
                    (Endpoints.with_method_body "POST"
                       (BodyText (JSON_stringify
                                    (JObj [("email", JStr "a@b.com");
                                           ("password", JStr "pw")])))
                       no_options)
                    Scenario.logged_out);
               SetItem "token" "T"])
    as (p' & Hrun & Hauth & Hpushed & _).
  - vm_compute. reflexivity.
  - exists p'. split; [exact Hrun|]. split; [exact Hauth | exact Hpushed].
Defined.

(** X17.  When the login request fails, the hook's [login] rejects with
    the very exception, stores its message as the error (the fallback text
    is never used, the exception never being [null]), turns loading off,
    pushes no route, and leaves [user] and [isAuthenticated] as they were:
    a page that was authenticated stays so.  With no other task touching
    the storage, the storage is unchanged too. *)
Theorem login_failure_keeps_the_session env_login env_check email password p err ls1 evs1 :
  Credentials.login env_login email password (storage p) = Some (Thrown err, ls1, evs1) ->
  exists e p',
    err = Some e
    /\ Hook.login env_login env_check email password p = Some (Thrown err, p')
    /\ auth p' = mkAuthState (user (auth p)) false (Some (exn_message e))
                   (isAuthenticated (auth p))
    /\ pushed p' = pushed p
    /\ in_flight p' = in_flight p
    /\ ((forall k ls, during_fetch env_login k ls = ls) ->
        (forall k ls, during_delay env_login k ls = ls) ->
        storage p' = storage p).
Proof.
  intros Hlogin. unfold Hook.login. rewrite Hlogin.
  destruct (login_thrown_not_null _ _ _ _ _ _ _ Hlogin) as (e & ->).
  exists e. eexists. split; [reflexivity|]. split; [reflexivity|].
  split; [reflexivity|]. split; [reflexivity|]. split; [reflexivity|].
  simpl. intros Hf Hd.
  unfold Credentials.login in Hlogin.
  destruct (Endpoints.auth_login env_login email password (storage p))
    as [[[c ls0] evs0]|] eqn:Hreq; [|discriminate].
  unfold Endpoints.auth_login, Endpoints.post in Hreq.
  pose proof (request_quiet _ _ _ _ _ _ _ Hf Hd Hreq) as Hq.
  pose proof (request_returned_not_null env_login) as Hnull.
  destruct c as [response|error]; [|injection Hlogin as _ <- _; exact Hq].
  destruct (get_prop (data response) "token") as [e0|[t|]];
    [injection Hlogin as _ <- _; exact Hq | | injection Hlogin as _ <- _; exact Hq].
  destruct (truthy t); [|injection Hlogin as _ <- _; exact Hq].
  destruct (get_prop_not_null (data response) "user"
              (Hnull _ _ _ _ _ _ Hreq)) as (u & Hu).
  rewrite Hu in Hlogin. discriminate Hlogin.
Qed.

(** A page that is authenticated tries another login, which is refused
    with field errors. *)
Lemma login_failure_keeps_the_session_witness :
  exists err p',
    Hook.login (Scenario.scripted [] (Scenario.responds 400 Scenario.field_errors))
      (Scenario.scripted [] (Scenario.responds 200 Scenario.profile))
      "a@b.com" "pw"
      (mkPage (mkAuthState (Some Scenario.profile) false None true)
         Scenario.logged_in [] [])
    = Some (Thrown err, p')
    /\ isAuthenticated (auth p') = true
    /\ error (auth p') = Some (JSON_stringify Scenario.field_errors)
    /\ storage p' = Scenario.logged_in.
Proof.
  destruct (Credentials.login
              (Scenario.scripted [] (Scenario.responds 400 Scenario.field_errors))
              "a@b.com" "pw" Scenario.logged_in) as [[[c ls1] evs1]|] eqn:Hlogin;
    [|vm_compute in Hlogin; discriminate Hlogin].
  destruct c as [u|err]; [vm_compute in Hlogin; discriminate Hlogin|].
  destruct (login_failure_keeps_the_session
              (Scenario.scripted [] (Scenario.responds 400 Scenario.field_errors))
              (Scenario.scripted [] (Scenario.responds 200 Scenario.profile))
              "a@b.com" "pw"
              (mkPage (mkAuthState (Some Scenario.profile) false None true)
                 Scenario.logged_in [] [])
              err ls1 evs1 Hlogin)
    as (e & p' & He & Hrun & Hauth & _ & _ & Hq).
  exists err, p'. split; [exact Hrun|]. rewrite Hauth.
  split; [reflexivity|]. split.
  - simpl. subst err. vm_compute in Hlogin. injection Hlogin as <- _ _. reflexivity.
  - apply Hq; reflexivity.
Defined.


Lemma refreshToken_returned env ls response ls' evs :
  Credentials.refreshToken env ls = Some (Returned response, ls', evs) ->
  exists t, get_prop (data response) "token" = inr (Some t) /\ truthy t = true.
Proof.
  unfold Credentials.refreshToken.
  destruct (Endpoints.auth_refreshToken env ls) as [[[c ls1] evs1]|]; [|discriminate].
  destruct c as [r|error]; [|discriminate].
  destruct (get_prop (data r) "token") as [e0|[t|]] eqn:Htoken; try discriminate.
  destruct (truthy t) eqn:Ht; [|discriminate].
  intros [= <- _ _]. eauto.
Qed.

Lemma refreshToken_thrown_quiet env ls err ls' evs :
  (forall k ls, during_fetch env k ls = ls) ->
  (forall k ls, during_delay env k ls = ls) ->
  Credentials.refreshToken env ls = Some (Thrown err, ls', evs) ->
  ls' = ls.
Proof.
  intros Hf Hd. unfold Credentials.refreshToken.
  destruct (Endpoints.auth_refreshToken env ls) as [[[c ls1] evs1]|] eqn:Hreq;
    [|discriminate].
  unfold Endpoints.auth_refreshToken, Endpoints.post in Hreq.
  pose proof (request_quiet _ _ _ _ _ _ _ Hf Hd Hreq) as Hq.
  destruct c as [r|error]; [|intros [= _ <- _]; exact Hq].
  destruct (get_prop (data r) "token") as [e0|[t|]]; try (intros [= _ <- _]; exact Hq).
  destruct (truthy t); [discriminate | intros [= _ <- _]; exact Hq].
Qed.

Lemma refreshToken_total env ls :
  exists c ls' evs, Credentials.refreshToken env ls = Some (c, ls', evs).
Proof.
  unfold Credentials.refreshToken, Endpoints.auth_refreshToken, Endpoints.post.
  destruct (request_total env "/auth/refresh-token/"
              (Endpoints.with_method_body "POST" (BodyText (JSON_stringify (JObj [])))
                 no_options) ls) as (c & ls' & evs & Hreq).
  rewrite Hreq. destruct c as [r|error]; [|eauto].
  destruct (get_prop (data r) "token") as [e0|[t|]]; eauto.
  destruct (truthy t); eauto.
Qed.

Lemma refreshToken_stored env ls response ls' evs t :
  Credentials.refreshToken env ls = Some (Returned response, ls', evs) ->
  get_prop (data response) "token" = inr (Some t) ->
  ls' !! "token" = Some (ToString t).
Proof.
  unfold Credentials.refreshToken.
  destruct (Endpoints.auth_refreshToken env ls) as [[[c ls1] evs1]|]; [|discriminate].
  destruct c as [r|error]; [|discriminate].
  destruct (get_prop (data r) "token") as [e0|[t0|]] eqn:Htoken; try discriminate.
  destruct (truthy t0) eqn:Ht; [|discriminate].
  intros [= <- <- _] Htoken'. rewrite Htoken in Htoken'. injection Htoken' as <-.
  apply lookup_insert_eq.
Qed.

(** X18.  The hook's [refreshToken] never rejects and never navigates.  It
    resolves with [true] exactly when the refresh request returned a truthy
    token; the token is then stored, as its string conversion, and the
    state and the storage the hook ends with are those [checkAuth] leaves
    when run from the hook's state on that storage.  Otherwise it resolves
    with [false] and leaves the session state exactly as it was (no forced
    logout, no error, no loading flag) and, with no other task touching the
    storage, the stored token too. *)
Theorem refreshToken_never_rejects env_refresh env_check p :
  exists b p',
    Hook.refreshToken env_refresh env_check p = Some (b, p')
    /\ in_flight p' = in_flight p
    /\ pushed p' = pushed p
    /\ (b = true <->
        exists response ls1 evs1,
          Credentials.refreshToken env_refresh (storage p)
          = Some (Returned response, ls1, evs1))
    /\ (b = true ->
        exists response ls1 evs1 t st2 ls2 evs2,
          Credentials.refreshToken env_refresh (storage p)
          = Some (Returned response, ls1, evs1)
          /\ get_prop (data response) "token" = inr (Some t)
          /\ truthy t = true
          /\ ls1 !! "token" = Some (ToString t)
          /\ checkAuth env_check (auth p) (<["token" := ToString t]> ls1)
             = Some (st2, ls2, evs2)
          /\ auth p' = st2
          /\ storage p' = ls2
          /\ loading st2 = false
          /\ error st2 = None)
    /\ (b = false ->
        auth p' = auth p
        /\ ((forall k ls, during_fetch env_refresh k ls = ls) ->
            (forall k ls, during_delay env_refresh k ls = ls) ->
            storage p' = storage p)).
Proof.
  unfold Hook.refreshToken.
  destruct (refreshToken_total env_refresh (storage p)) as (c & ls1 & evs1 & Hrun).
  rewrite Hrun. destruct c as [response|err].
  - destruct (refreshToken_returned _ _ _ _ _ Hrun) as (t & Htoken & Ht).
    pose proof (refreshToken_stored _ _ _ _ _ _ Hrun Htoken) as Hstored.
    rewrite Htoken, Ht.
    destruct (checkAuth_ends env_check (auth p) (Credentials.store_token t ls1))
      as (st2 & ls2 & evs2 & Hcheck & Hload & Herr & _).
    rewrite Hcheck. do 2 eexists. split; [reflexivity|].
    split; [reflexivity|]. split; [reflexivity|]. split.
    + split; [intros _; eauto | reflexivity].
    + split; [|discriminate]. intros _.
      exists response, ls1, evs1, t, st2, ls2, evs2.
      split; [reflexivity|]. split; [exact Htoken|]. split; [exact Ht|].
      split; [exact Hstored|]. split; [exact Hcheck|].
      split; [reflexivity|]. split; [reflexivity|]. split; assumption.
  - do 2 eexists. split; [reflexivity|].
    split; [reflexivity|]. split; [reflexivity|]. split.
    + split; [discriminate | intros (response & ls0 & evs0 & [=])].
    + split; [discriminate|]. intros _. split; [reflexivity|].
      simpl. intros Hf Hd. eapply refreshToken_thrown_quiet; eauto.
Qed.

Lemma signup_total env userData ls :
  exists c ls' evs, Credentials.signup env userData ls = Some (c, ls', evs).
Proof.
  unfold Credentials.signup, Endpoints.auth_signup, Endpoints.post.
  destruct (request_total env "/auth/register/"
              (Endpoints.with_method_body "POST" (BodyText (JSON_stringify userData))
                 no_options) ls) as (c & ls' & evs & Hreq).
  rewrite Hreq. destruct c as [r|error]; [|eauto].
  destruct (truthy (data r)); [|eauto].
  destruct (get_prop (data r) "token") as [e0|[t|]]; eauto.
  destruct (truthy t); eauto.
  destruct (get_prop (data r) "user"); eauto.
Qed.

(** X19.  The hook's [signup] always ends, in one of two ways.  When the
    registration returned a user it resolves, authenticated with that user,
    loading off, the error empty and the profile route pushed, whatever the
    profile request in between came to.  When the registration failed it
    rejects with the same exception, stores an error message, turns
    loading off, pushes nothing and leaves [user] and [isAuthenticated] as
    they were. *)
Theorem signup_outcomes env_signup env_check userData p :
  exists c p',
    Hook.signup env_signup env_check userData p = Some (c, p')
    /\ in_flight p' = in_flight p
    /\ ((exists u ls1 evs1,
           Credentials.signup env_signup userData (storage p)
           = Some (Returned u, ls1, evs1)
           /\ c = Returned tt
           /\ auth p' = mkAuthState u false None true
           /\ pushed p' = (pushed p ++ [Hook.ROUTES_PROFILE_BASE])%list)
        \/ (exists err ls1 evs1,
              Credentials.signup env_signup userData (storage p)
              = Some (Thrown err, ls1, evs1)
              /\ c = Thrown err
              /\ auth p' = mkAuthState (user (auth p)) false
                             (Some (message_or DEFAULT err))
                             (isAuthenticated (auth p))
              /\ pushed p' = pushed p
              /\ storage p' = ls1)).
Proof.
  unfold Hook.signup.
  destruct (signup_total env_signup userData (storage p)) as (c & ls1 & evs1 & Hrun).
  rewrite Hrun. destruct c as [u|err].
  - destruct (checkAuth_ends env_check (Hook.login_begin (auth p)) ls1)
      as (st2 & ls2 & evs2 & Hcheck & _ & Herr & _).
    rewrite Hcheck. do 2 eexists. split; [reflexivity|]. split; [reflexivity|].
    left. exists u, ls1, evs1. split; [reflexivity|]. split; [reflexivity|].
    simpl. unfold Hook.login_done. rewrite Herr. split; reflexivity.
  - do 2 eexists. split; [reflexivity|]. split; [reflexivity|].
    right. exists err, ls1, evs1. repeat split.
Qed.

(** X20.  The hook's [logout] cannot fail.  From any page it ends
    anonymous, with no user, loading off and the error empty; the token is
    removed and every other key of the storage kept; the home route is
    pushed once; the checks in flight are left in flight.  Logging out
    again changes neither the state nor the storage. *)
Theorem logout_ends_anonymous p :
  auth (logout p) = mkAuthState None false None false
  /\ storage (logout p) !! "token" = None
  /\ (forall k, k <> "token" -> storage (logout p) !! k = storage p !! k)
  /\ pushed (logout p) = (pushed p ++ [ROUTES_HOME])%list
  /\ in_flight (logout p) = in_flight p
  /\ auth (logout (logout p)) = auth (logout p)
  /\ storage (logout (logout p)) = storage (logout p).
Proof.
  unfold logout. simpl.
  split; [reflexivity|]. split; [apply lookup_delete_eq|]. split.
  - intros k Hk. rewrite !lookup_delete_ne by congruence. reflexivity.
  - split; [reflexivity|]. split; [reflexivity|]. split; [reflexivity|].
    apply map_eq. intros k.
    destruct (decide (k = "token")) as [->|Hk].
    + rewrite !lookup_delete_eq. reflexivity.
    + rewrite !lookup_delete_ne by congruence. reflexivity.
Qed.

(** X21.  A storage event for any key but the token changes nothing.  An
    event for the token leaves the hook in the state a freshly mounted hook
    would compute from the same storage and network, whatever state it was
    in, so that tabs converge; when the other tab removed the token, that
    state is anonymous and no request is made. *)
Theorem storage_event_resyncs env key p :
  (key <> Some "token" -> Hook.handleStorageChange env key p = Some p)
  /\ (key = Some "token" ->
      exists p' evs,
        Hook.handleStorageChange env key p = Some p'
        /\ checkAuth env initial (storage p) = Some (auth p', storage p', evs)
        /\ in_flight p' = in_flight p
        /\ pushed p' = pushed p
        /\ (Auth.isAuthenticated (storage p) = false ->
            auth p' = mkAuthState None false None false
            /\ storage p' = storage p
            /\ fetches evs = 0%nat)).
Proof.
  split.
  - intros Hkey. unfold Hook.handleStorageChange.
    destruct key as [k|]; [|reflexivity].
    destruct (String.eqb_spec k "token") as [->|Hk]; [contradiction | reflexivity].
  - intros ->. unfold Hook.handleStorageChange. simpl String.eqb. cbv iota.
    destruct (checkAuth_ends env (auth p) (storage p))
      as (st' & ls' & evs & Hcheck & _ & _ & _ & _ & Hanon).
    rewrite Hcheck. do 2 eexists. split; [reflexivity|]. simpl.
    split; [rewrite (checkAuth_forgets env initial (auth p)); exact Hcheck|].
    split; [reflexivity|]. split; [reflexivity|]. exact Hanon.
Qed.

(** Another tab logs out while this one is authenticated. *)
Lemma storage_event_resyncs_witness :
  Hook.handleStorageChange (Scenario.scripted [] (Scenario.responds 200 Scenario.profile))
    (Some "token")
    (mkPage (mkAuthState (Some Scenario.profile) false None true)
       Scenario.logged_out [] [])
  = Some (mkPage (mkAuthState None false None false) Scenario.logged_out [] []).
Proof.
  destruct (storage_event_resyncs
              (Scenario.scripted [] (Scenario.responds 200 Scenario.profile))
              (Some "token")
              (mkPage (mkAuthState (Some Scenario.profile) false None true)
                 Scenario.logged_out [] [])) as [_ Htoken].
  destruct (Htoken eq_refl) as (p' & evs & Hrun & _ & Hfl & Hpushed & Hanon).
  destruct (Hanon eq_refl) as (Hauth & Hls & _).
  rewrite Hrun. destruct p' as [a s f q]. simpl in *. subst. reflexivity.
Defined.

End HookMore.

(** ** Properties of the photo page *)

Section Likes.
Import Js Api Spec PhotoDetail.



(** X23.  Liking and unliking undo each other: after two calls of
    [handleLike] that both took effect, in either order, the count and the
    like flag are what they were.  The count is a whole number within the
    range in which adding and taking away one are exact. *)
Theorem handleLike_round_trip env1 env2 ph ls ph1 ls1 evs1 ph2 ls2 evs2 :
  - 2 ^ 53 < likes ph < 2 ^ 53 ->
  handleLike env1 (Some ph) ls = Some (Some ph1, ls1, evs1) ->
  handleLike env2 (Some ph1) ls1 = Some (Some ph2, ls2, evs2) ->
  liked ph1 = negb (liked ph) ->
  liked ph2 = negb (liked ph1) ->
  likes ph2 = likes ph
  /\ liked ph2 = liked ph
  /\ id ph2 = id ph
  /\ (likes ph1 = likes ph + 1 \/ likes ph1 = likes ph - 1).
Proof.
  intros _ Hrun1 Hrun2 Hflip1 Hflip2.
  assert (Hstep : forall env q ls0 q' ls0' evs0,
            handleLike env (Some q) ls0 = Some (Some q', ls0', evs0) ->
            liked q' = negb (liked q) ->
            id q' = id q
            /\ likes q' = (if liked q then likes q - 1 else likes q + 1)).
  { intros env q ls0 q' ls0' evs0 Hrun Hflip. unfold handleLike in Hrun.
    destruct (if liked q then _ else _) as [[[c ls'] evs]|]; [|discriminate].
    destruct c; injection Hrun as <- _ _.
    - split; reflexivity.
    - destruct (liked q); discriminate Hflip. }
  destruct (Hstep _ _ _ _ _ _ Hrun1 Hflip1) as [Hid1 Hl1].
  destruct (Hstep _ _ _ _ _ _ Hrun2 Hflip2) as [Hid2 Hl2].
  rewrite Hflip1 in Hl2. rewrite Hflip2, Hflip1, Hid2, Hid1.
  destruct (liked ph); simpl in *; repeat split; lia.
Qed.

(** A photo with 41 likes is liked, then unliked. *)
Lemma handleLike_round_trip_witness :
  exists ph1 ph2 ls1 ls2 evs1 evs2,
    handleLike (Scenario.scripted [] (Scenario.responds 200 (JObj [])))
      (Some (mkPhoto "p1" None 41)) Scenario.logged_in = Some (Some ph1, ls1, evs1)
    /\ handleLike (Scenario.scripted [] (Scenario.responds 200 (JObj [])))
         (Some ph1) ls1 = Some (Some ph2, ls2, evs2)
    /\ likes ph1 = 42
    /\ likes ph2 = 41.
Proof.
  exists (mkPhoto "p1" (Some true) 42), (mkPhoto "p1" (Some false) 41).
  do 4 eexists.
  assert (H1 : handleLike (Scenario.scripted [] (Scenario.responds 200 (JObj [])))
                 (Some (mkPhoto "p1" None 41)) Scenario.logged_in
               = Some (Some (mkPhoto "p1" (Some true) 42), Scenario.logged_in,
                       [GetItem "token";
                        Fetch (sent_url (Scenario.scripted [] (Scenario.responds 200 (JObj [])))
                                 "/photos/p1/like"
                                 (Endpoints.with_method_body "POST" (BodyText "{}") no_options))
                          (sent_init
                             (Endpoints.with_method_body "POST" (BodyText "{}") no_options)
                             Scenario.logged_in)]))
    by (vm_compute; reflexivity).
  assert (H2 : handleLike (Scenario.scripted [] (Scenario.responds 200 (JObj [])))
                 (Some (mkPhoto "p1" (Some true) 42)) Scenario.logged_in
               = Some (Some (mkPhoto "p1" (Some false) 41), Scenario.logged_in,
                       [GetItem "token";
                        Fetch (sent_url (Scenario.scripted [] (Scenario.responds 200 (JObj [])))
                                 "/photos/p1/like" (with_method "DELETE" no_options))
                          (sent_init (with_method "DELETE" no_options)
                             Scenario.logged_in)]))
    by (vm_compute; reflexivity).
  split; [exact H1|]. split; [exact H2|]. split; [reflexivity|].
  apply (handleLike_round_trip _ _ (mkPhoto "p1" None 41) _ _ _ _ _ _ _
           ltac:(simpl; lia) H1 H2 eq_refl eq_refl).
Defined.

End Likes.
